(** * Cafe POS: order cart, table registry, checkout and sales reports

    A shallow embedding of [src/pos.jsx].

    Conventions of the embedding:
    - JavaScript numbers that the program manipulates (prices, quantities,
      totals, epoch milliseconds) are whole numbers in every path the
      program itself produces (menu prices are whole rupees, quantities move
      by whole steps); they are modelled as [Z].
    - A Firestore document is a finite map from field names to values; a
      collection is a finite map from document ids to documents (tables) or
      an append-only list of documents (sales).
    - An [async] handler becomes a function in a small state-and-exception
      monad over the remote store; a transport failure of a write is an
      exception raised by that write. *)

From Stdlib Require Import ZArith Ascii String List Permutation Sorted Lia Bool.
From Stdlib Require Import DecimalString DecimalPos DecimalN.
From stdpp Require Import base gmap strings list fin_maps sorting.
Import ListNotations.

Local Open Scope string_scope.
Local Open Scope list_scope.
Local Open Scope Z_scope.

(** ** Data model *)

(** A menu entry, [{ name, price, id }] (one element of an [items] array of
    [MENU_ITEMS]). *)
Module Item.
Record t := mk { name : string; price : Z; id : string }.
End Item.

(** An order line: a menu entry together with a [quantity]. *)
Module Line.
Record t := mk { name : string; price : Z; id : string; quantity : Z }.

(** [{ ...i, quantity: q }] *)
Definition with_quantity (i : t) (q : Z) : t :=
  mk (name i) (price i) (id i) q.

(** [{ ...item, quantity: q }] for a menu entry [item] *)
Definition of_item (item : Item.t) (q : Z) : t :=
  mk (Item.name item) (Item.price item) (Item.id item) q.
End Line.

Definition Order := list Line.t.

(** The menu of the source, flattened over its two categories. *)
Definition MENU_ITEMS : list (string * list Item.t) :=
  [ ("Navaratri Special / Snacks",
     [ Item.mk "Panner Chilly" 200 "ns1";
       Item.mk "Hara Bhara Kabab (08 Pcs)" 180 "ns2";
       Item.mk "Manchurian (Dry/Gravy)" 100 "ns3";
       Item.mk "Peri Peri Fries" 120 "ns4";
       Item.mk "Fried Rice" 100 "ns5";
       Item.mk "Veg Hakka Noodles" 100 "ns6";
       Item.mk "French Fries" 80 "ns7";
       Item.mk "Vegitable Maggie" 50 "ns8";
       Item.mk "Live Dhokla" 50 "ns9" ]);
    ("Beverages / Shakes",
     [ Item.mk "Oreo Shake" 100 "b1";
       Item.mk "KitKat Shake" 100 "b2";
       Item.mk "Cold Coffee" 100 "b3";
       Item.mk "Badam Shake" 80 "b4";
       Item.mk "Cold Coco" 70 "b5";
       Item.mk "Hot Coffee" 30 "b6";
       Item.mk "Tea" 20 "b7" ]) ].

(** ** The order cart of [OrderModal] *)

(** [i.id === item.id] *)
Definition same_id (item : Item.t) (i : Line.t) : bool :=
  String.eqb (Line.id i) (Item.id item).

(** [currentOrder.reduce((sum, item) => sum + item.price * item.quantity, 0)] *)
Definition tableTotal (currentOrder : Order) : Z :=
  fold_left (fun sum item => sum + Line.price item * Line.quantity item)
            currentOrder 0.

(** The state updater passed to [setCurrentOrder] by [updateItemQuantity]. *)
Definition updateItemQuantity (item : Item.t) (delta : Z) (prevOrder : Order)
  : Order :=
  match List.find (same_id item) prevOrder with
  | Some existingItem =>
      let newQuantity := Line.quantity existingItem + delta in
      if newQuantity <=? 0
      then List.filter (fun i => negb (same_id item i)) prevOrder
      else List.map (fun i => if same_id item i
                              then Line.with_quantity i newQuantity
                              else i) prevOrder
  | None =>
      if delta >? 0
      then prevOrder ++ [Line.of_item item 1]
      else prevOrder
  end.

(** The ids of the lines of an order, in order. *)
Definition ids (o : Order) : list string := List.map Line.id o.

(** ** The remote store (Firestore) *)

(** Field values of a table document. [VServerTimestamp] is the sentinel
    returned by [serverTimestamp()]; the store replaces it by its own clock
    when the write is committed. *)
Inductive Value :=
| VNum (n : Z)
| VStr (s : string)
| VItems (o : Order)
| VServerTimestamp
| VTimestamp (seconds : Z).

(** A sale document as the sales feed delivers it. [timestamp] is [None]
    when the field is null or missing (a write whose server timestamp is
    still pending, or a record written without one). *)
Module Sale.
Record t := mk {
  tableId : Z;
  items : Order;
  total : Z;
  timestamp : option Z;
  date : string
}.
End Sale.

(** Write requests sent to the store. *)
Inductive Write :=
| WAddDoc (sale : Sale.t)
| WSetDocMerge (ref : string) (data : gmap string Value)
| WUpdateDoc (ref : string) (data : gmap string Value).

Inductive FirestoreError :=
| Unavailable   (* the request did not reach the store *)
| NotFound.     (* updateDoc on a document that does not exist *)

(** The world a handler runs in: the two remote collections, the clocks, the
    fate of the coming write requests ([net]: one boolean per request,
    [false] a transport failure; requests beyond the list are delivered),
    the requests issued so far with their outcome, and the console. *)
Record World := mkWorld {
  tables : gmap string (gmap string Value);
  sales : list Sale.t;
  serverTime : Z;      (* seconds since the epoch, at the store *)
  clientTime : Z;      (* milliseconds since the epoch, [new Date()] *)
  net : list bool;
  requests : list (Write * bool);
  console : list string
}.

Definition set_tables (w : World) (t : gmap string (gmap string Value)) :=
  mkWorld t (sales w) (serverTime w) (clientTime w) (net w) (requests w)
          (console w).
Definition set_sales (w : World) (s : list Sale.t) :=
  mkWorld (tables w) s (serverTime w) (clientTime w) (net w) (requests w)
          (console w).
Definition set_net (w : World) (n : list bool) :=
  mkWorld (tables w) (sales w) (serverTime w) (clientTime w) n (requests w)
          (console w).
Definition record_request (w : World) (r : Write) (ok : bool) :=
  mkWorld (tables w) (sales w) (serverTime w) (clientTime w) (net w)
          (requests w ++ [(r, ok)]) (console w).
Definition print (w : World) (line : string) :=
  mkWorld (tables w) (sales w) (serverTime w) (clientTime w) (net w)
          (requests w) (console w ++ [line]).

(** *** Handlers: state and exceptions *)

Inductive Result (A : Type) :=
| Ok (a : A)
| Throw (e : FirestoreError).
Arguments Ok {A} a.
Arguments Throw {A} e.

Definition M (A : Type) : Type := World -> Result A * World.

Definition ret {A} (a : A) : M A := fun w => (Ok a, w).

Definition bind {A B} (m : M A) (k : A -> M B) : M B :=
  fun w => match m w with
           | (Ok a, w') => k a w'
           | (Throw e, w') => (Throw e, w')
           end.

Definition throw {A} (e : FirestoreError) : M A := fun w => (Throw e, w).

(** [try { body } catch (error) { handler(error) }] *)
Definition try_catch {A} (body : M A) (handler : FirestoreError -> M A) : M A :=
  fun w => match body w with
           | (Ok a, w') => (Ok a, w')
           | (Throw e, w') => handler e w'
           end.

Declare Scope handler_scope.
Delimit Scope handler_scope with handler.
Notation "x <- m ;; k" := (bind m (fun x => k))
  (at level 100, m at next level, right associativity) : handler_scope.
Notation "m ;; k" := (bind m (fun _ => k))
  (at level 100, right associativity) : handler_scope.

(** [for (const x of xs) { await body(x) }] *)
Fixpoint for_each {A} (xs : list A) (body : A -> M unit) : M unit :=
  match xs with
  | [] => ret tt
  | x :: xs' => (body x ;; for_each xs' body)%handler
  end.

Definition console_log (line : string) : M unit := fun w => (Ok tt, print w line).
Definition console_error (line : string) : M unit := fun w => (Ok tt, print w line).

(** [new Date()], the time value of the client clock. *)
Definition new_Date : M Z := fun w => (Ok (clientTime w), w).

(** Run a handler for its final world. *)
Definition exec {A} (m : M A) (w : World) : World := snd (m w).

(** *** The three write operations the program uses *)

(** The store resolves the timestamp sentinel at commit time. *)
Definition resolve (now : Z) (v : Value) : Value :=
  match v with
  | VServerTimestamp => VTimestamp now
  | _ => v
  end.

(** Consume the fate of the next request. *)
Definition delivered (w : World) : bool * World :=
  match net w with
  | [] => (true, w)
  | b :: rest => (b, set_net w rest)
  end.

(** [addDoc(getSalesCollectionRef(db), { tableId, items, total,
    timestamp: serverTimestamp(), date })]: a new document, under a fresh
    id, at the end of the collection. *)
Definition addDoc (tableId : Z) (items : Order) (total : Z) (date : string)
  : M unit :=
  fun w =>
    let (ok, w1) := delivered w in
    let sale := Sale.mk tableId items total (Some (serverTime w1)) date in
    if ok
    then (Ok tt, record_request (set_sales w1 (sales w1 ++ [sale]))
                                (WAddDoc sale) true)
    else (Throw Unavailable, record_request w1 (WAddDoc sale) false).

(** [setDoc(ref, data, { merge: true })]: creates the document when it is
    missing; otherwise every field named in [data] is replaced and every
    other field is kept. *)
Definition setDoc_merge (ref : string) (data : gmap string Value) : M unit :=
  fun w =>
    let (ok, w1) := delivered w in
    if ok
    then
      let old := default ∅ (tables w1 !! ref) in
      let new := (resolve (serverTime w1) <$> data) ∪ old in
      (Ok tt, record_request (set_tables w1 (<[ref := new]> (tables w1)))
                             (WSetDocMerge ref data) true)
    else (Throw Unavailable, record_request w1 (WSetDocMerge ref data) false).

(** [updateDoc(ref, data)]: fails when the document is missing; otherwise
    replaces the fields named in [data] and keeps the others. *)
Definition updateDoc (ref : string) (data : gmap string Value) : M unit :=
  fun w =>
    let (ok, w1) := delivered w in
    if ok
    then
      match tables w1 !! ref with
      | Some old =>
          let new := (resolve (serverTime w1) <$> data) ∪ old in
          (Ok tt, record_request (set_tables w1 (<[ref := new]> (tables w1)))
                                 (WUpdateDoc ref data) true)
      | None => (Throw NotFound, record_request w1 (WUpdateDoc ref data) false)
      end
    else (Throw Unavailable, record_request w1 (WUpdateDoc ref data) false).

(** ** Numbers as strings *)

(** Decimal digits of a natural number. *)
Definition digits (n : Z) : string :=
  NilZero.string_of_uint (N.to_uint (Z.to_N n)).

(** [String(n)], [n.toString()] for an integral number. *)
Definition numberToString (n : Z) : string :=
  if n <? 0 then "-" ++ digits (- n) else digits n.

(** ** Dates, as [Date] of the platform computes them

    A date is its time value, the milliseconds since the epoch; the time
    values the program meets are those of Firestore timestamps and of the
    clock, well inside the range of [Date]. *)

Module Date.

Definition msPerDay : Z := 86400000.

(** Days since the epoch, and the time within the day, of a time value. *)
Definition Day (t : Z) : Z := t / msPerDay.
Definition TimeWithinDay (t : Z) : Z := t mod msPerDay.

(** Year, month (1..12) and day of the month (1..31) of a day number, in the
    proleptic Gregorian calendar. *)
Definition civil (day : Z) : Z * Z * Z :=
  let z := day + 719468 in
  let era := z / 146097 in
  let doe := z - era * 146097 in
  let yoe := (doe - doe / 1460 + doe / 36524 - doe / 146096) / 365 in
  let doy := doe - (365 * yoe + yoe / 4 - yoe / 100) in
  let mp := (5 * doy + 2) / 153 in
  let d := doy - (153 * mp + 2) / 5 + 1 in
  let m := if mp <? 10 then mp + 3 else mp - 9 in
  let y := yoe + era * 400 + (if m <=? 2 then 1 else 0) in
  (y, m, d).

Definition YearFromTime (t : Z) : Z := fst (fst (civil (Day t))).
Definition MonthFromTime (t : Z) : Z := snd (fst (civil (Day t))).
Definition DateFromTime (t : Z) : Z := snd (civil (Day t)).

(** [s.padStart(width, '0')] *)
Fixpoint zeros (k : nat) : string :=
  match k with
  | O => ""
  | S k' => "0" ++ zeros k'
  end.

Definition pad (width : nat) (n : Z) : string :=
  let s := digits n in
  zeros (width - String.length s) ++ s.

(** The year of the ISO format: four digits from 0 to 9999, otherwise a sign
    and six digits. *)
Definition isoYear (y : Z) : string :=
  if (0 <=? y) && (y <=? 9999) then pad 4 y
  else (if y <? 0 then "-" else "+") ++ pad 6 (Z.abs y).

(** [d.toISOString()], [YYYY-MM-DDTHH:mm:ss.sssZ], in UTC. *)
Definition toISOString (t : Z) : string :=
  let ms := TimeWithinDay t in
  isoYear (YearFromTime t) ++ "-" ++ pad 2 (MonthFromTime t) ++ "-"
    ++ pad 2 (DateFromTime t) ++ "T"
    ++ pad 2 (ms / 3600000) ++ ":" ++ pad 2 (ms / 60000 mod 60) ++ ":"
    ++ pad 2 (ms / 1000 mod 60) ++ "." ++ pad 3 (ms mod 1000) ++ "Z".

(** [s.split('T')[0]]: the part of [s] before its first ['T']. *)
Fixpoint split_T_0 (s : string) : string :=
  match s with
  | EmptyString => EmptyString
  | String c rest =>
      if Ascii.eqb c "T"%char then EmptyString else String c (split_T_0 rest)
  end.

(** [new Date(today)] for [today = new Date(t).toISOString().split('T')[0]]:
    a date-only string denotes midnight UTC of that day. *)
Definition ofDateString_today (t : Z) : Z := Day t * msPerDay.

(** [d.getFullYear()], in local time; [localTZA t] is the offset of local
    time from UTC, in milliseconds, at the instant [t]. *)
Definition getFullYear (localTZA : Z -> Z) (t : Z) : Z :=
  YearFromTime (t + localTZA t).

Definition monthShort (m : Z) : string :=
  nth (Z.to_nat (m - 1))
      ["Jan"; "Feb"; "Mar"; "Apr"; "May"; "Jun";
       "Jul"; "Aug"; "Sep"; "Oct"; "Nov"; "Dec"] "".

(** [new Intl.DateTimeFormat('en-US', { year: 'numeric', month: 'short' })
    .format(d)], in local time: [Jan 2024]. *)
Definition formatMonthYear (localTZA : Z -> Z) (t : Z) : string :=
  let l := t + localTZA t in
  monthShort (MonthFromTime l) ++ " " ++ numberToString (YearFromTime l).

End Date.

(** ** Sales reports ([ReportsView]) *)

Inductive ReportType := Daily | Monthly | Yearly.

(** A row of the report, [{ name, sales }]. *)
Module ReportRow.
Record t := mk { name : string; sales : Z }.
End ReportRow.

(** [a.localeCompare(b)]. Every label the report builds is made of decimal
    digits and ['-'] ([Daily], [Yearly]) or has the shape [Mon YYYY]
    ([Monthly]); on such strings the collation order is the order of the
    code units, which is what this definition computes. *)
Definition localeCompare (a b : string) : Z :=
  match String.compare a b with
  | Lt => -1
  | Eq => 0
  | Gt => 1
  end.

Section Sort.
Context {A : Type}.
Variable compareFn : A -> A -> Z.

(** [xs.sort(compareFn)]: the sort is stable, an element stays in front of
    the later elements that compare equal to it. *)
Fixpoint sort_insert (x : A) (xs : list A) : list A :=
  match xs with
  | [] => [x]
  | y :: ys => if compareFn x y <=? 0 then x :: y :: ys
               else y :: sort_insert x ys
  end.

Fixpoint sort (xs : list A) : list A :=
  match xs with
  | [] => []
  | x :: xs' => sort_insert x (sort xs')
  end.
End Sort.

(** *** The accumulator object [data]

    A JavaScript object used as a map from bucket keys to rows: the list of
    its own properties in creation order. *)
Module Obj.

Definition t := list (string * ReportRow.t).

(** [data[key]] *)
Fixpoint get (key : string) (data : t) : option ReportRow.t :=
  match data with
  | [] => None
  | (k, v) :: rest => if String.eqb k key then Some v else get key rest
  end.

(** [data[key] = v] for a [key] that [data] does not have yet. *)
Definition define (key : string) (v : ReportRow.t) (data : t) : t :=
  data ++ [(key, v)].

(** [data[key].sales += amount] *)
Fixpoint add_sales (key : string) (amount : Z) (data : t) : t :=
  match data with
  | [] => []
  | (k, v) :: rest =>
      if String.eqb k key
      then (k, ReportRow.mk (ReportRow.name v) (ReportRow.sales v + amount)) :: rest
      else (k, v) :: add_sales key amount rest
  end.

(** A property key is an array index when it is the canonical decimal form
    of an integer between 0 and 2^32 - 2. *)
Definition arrayIndex (key : string) : option Z :=
  match NilZero.uint_of_string key with
  | Some u =>
      let n := Z.of_N (N.of_uint u) in
      if String.eqb (digits n) key && (n <? 4294967295)
      then Some n else None
  | None => None
  end.

Definition is_index (p : string * ReportRow.t) : bool :=
  match arrayIndex (fst p) with Some _ => true | None => false end.

Definition index_of (p : string * ReportRow.t) : Z :=
  match arrayIndex (fst p) with Some n => n | None => 0 end.

(** [Object.values(data)]: the values of the array-index keys in ascending
    numeric order, then those of the other keys in creation order. *)
Definition values (data : t) : list ReportRow.t :=
  List.map snd
    (sort (fun p q => index_of p - index_of q) (List.filter is_index data)
     ++ List.filter (fun p => negb (is_index p)) data).

End Obj.

Section ReportsView.
(** Offset of local time from UTC at an instant, and the time of the call
    ([new Date()]), both in milliseconds. *)
Variable localTZA : Z -> Z.
Variable now : Z.
Variable reportType : ReportType.

(** [sale.timestamp ? new Date(sale.timestamp.seconds * 1000)
                    : new Date(today)] *)
Definition saleDate (sale : Sale.t) : Z :=
  match Sale.timestamp sale with
  | Some seconds => seconds * 1000
  | None => Date.ofDateString_today now
  end.

(** The [key] and the [label] of the bucket of a sale. *)
Definition bucket (sale : Sale.t) : string * string :=
  let d := saleDate sale in
  match reportType with
  | Daily =>
      let key := Date.split_T_0 (Date.toISOString d) in (key, key)
  | Monthly =>
      (String.substring 0 7 (Date.toISOString d),
       Date.formatMonthYear localTZA d)
  | Yearly =>
      let key := numberToString (Date.getFullYear localTZA d) in (key, key)
  end.

Definition bucketKey (sale : Sale.t) : string := fst (bucket sale).
Definition bucketLabel (sale : Sale.t) : string := snd (bucket sale).

(** The body of [salesData.forEach(sale => ...)]. *)
Definition accumulate (data : Obj.t) (sale : Sale.t) : Obj.t :=
  let (key, label) := bucket sale in
  let data1 := match Obj.get key data with
               | None => Obj.define key (ReportRow.mk label 0) data
               | Some _ => data
               end in
  Obj.add_sales key (Sale.total sale) data1.

Definition aggregatedData (salesData : list Sale.t) : list ReportRow.t :=
  let data := fold_left accumulate salesData [] in
  sort (fun a b => localeCompare (ReportRow.name a) (ReportRow.name b)) (Obj.values data).

(** [aggregatedData.reduce((sum, item) => sum + item.sales, 0)] *)
Definition totalSales (salesData : list Sale.t) : Z :=
  fold_left (fun sum item => sum + ReportRow.sales item) (aggregatedData salesData) 0.

(** The sales of a bucket, the sum of their totals, and the row the bucket
    is expected to give: the label of its first sale with that sum. *)
Definition inBucket (key : string) (sale : Sale.t) : bool :=
  String.eqb (bucketKey sale) key.

Definition bucketSales (key : string) (salesData : list Sale.t) : Z :=
  fold_right (fun sale acc => Sale.total sale + acc) 0
             (List.filter (inBucket key) salesData).

Definition bucketRow (key : string) (salesData : list Sale.t) : option ReportRow.t :=
  match List.find (inBucket key) salesData with
  | Some first => Some (ReportRow.mk (bucketLabel first) (bucketSales key salesData))
  | None => None
  end.

End ReportsView.

(** ** Handlers *)

(** The Firestore handle [db] of [useFirebase]; [None] until it is set. *)
Inductive Firestore := firestore.

(** [doc(getTablesCollectionRef(db), String(tableId))] *)
Definition tableRef (tableId : Z) : string := numberToString tableId.

Module App.

(** [saveOrder(tableId, orderItems, total)] *)
Definition saveOrder (db : option Firestore)
  (tableId : Z) (orderItems : Order) (total : Z) : M unit :=
  match db with
  | None => ret tt
  | Some _ =>
      try_catch
        (updateDoc (tableRef tableId)
           (<["order" := VItems orderItems]>
            (<["total" := VNum total]>
             (<["status" := VStr (if (0 <? Z.of_nat (length orderItems))
                                  then "Open" else "Closed")]>
              (<["lastUpdate" := VServerTimestamp]> ∅)))))
        (fun error => console_error "Error saving order:")
  end.

(** [handleCheckout(tableId, orderItems, total)] *)
Definition handleCheckout (db : option Firestore)
  (tableId : Z) (orderItems : Order) (total : Z) : M unit :=
  match db with
  | None => ret tt
  | Some _ =>
      try_catch
        ((* 1. Record the sale *)
         now <- new_Date ;;
         addDoc tableId orderItems total
                (Date.split_T_0 (Date.toISOString now)) ;;
         (* 2. Clear the table *)
         updateDoc (tableRef tableId)
           (<["order" := VItems []]>
            (<["total" := VNum 0]>
             (<["status" := VStr "Closed"]> ∅))))%handler
        (fun error => console_error "Error during checkout:")
  end.

End App.

Module OrderModal.

(** The state of the modal. *)
Record State := mkState { currentOrder : Order; message : string }.

(** [useState(table.order)], [useState('')] *)
Definition init (tableOrder : Order) : State := mkState tableOrder "".

Definition setCurrentOrder (f : Order -> Order) (st : State) : State :=
  mkState (f (currentOrder st)) (message st).

Definition setMessage (m : string) (st : State) : State :=
  mkState (currentOrder st) m.

(** [handleSave()], for the modal of table [tableId] with callback [onSave]. *)
Definition handleSave (onSave : Z -> Order -> Z -> M unit)
  (tableId : Z) (st : State) : M State :=
  (onSave tableId (currentOrder st) (tableTotal (currentOrder st)) ;;
   ret (setMessage "Order saved!" st))%handler.

(** [handleCheckout()] *)
Definition handleCheckout (onCheckout : Z -> Order -> Z -> M unit)
  (tableId : Z) (st : State) : M State :=
  if (length (currentOrder st) =? 0)%nat
  then ret (setMessage "Cannot checkout an empty order." st)
  else (onCheckout tableId (currentOrder st) (tableTotal (currentOrder st)) ;;
        ret (setMessage "Checkout complete!" st))%handler.

End OrderModal.

Module OrdersView.

(** The document written for table [i] at initialisation. *)
Definition initialTable (i : Z) : gmap string Value :=
  <["tableId" := VNum i]>
  (<["status" := VStr "Closed"]>
   (<["order" := VItems []]>
    (<["total" := VNum 0]> ∅))).

(** [initTables()] *)
Definition initTables : M unit :=
  try_catch
    (for_each [1; 2; 3; 4; 5; 6; 7; 8; 9; 10]
       (fun i => setDoc_merge (tableRef i) (initialTable i)) ;;
     console_log "Tables initialized.")%handler
    (fun error => console_error "Error initializing tables:").

(** The effect that initialises the tables; [tables] is the local copy of
    the tables collection. *)
Definition initEffect (isAuthReady : bool) (db : option Firestore)
  (tables : list (gmap string Value)) : M unit :=
  match db with
  | Some _ =>
      if isAuthReady && (length tables =? 0)%nat
      then (console_log "Initializing tables..." ;; initTables)%handler
      else ret tt
  | None => ret tt
  end.

End OrdersView.

(** ** Reading a table document *)

Definition field (name : string) (w : World) (tableId : Z) : option Value :=
  match tables w !! tableRef tableId with
  | Some d => d !! name
  | None => None
  end.

(** The sum over the lines of an order of price times quantity. *)
Fixpoint sum_price_quantity (o : Order) : Z :=
  match o with
  | [] => 0
  | l :: rest => Line.price l * Line.quantity l + sum_price_quantity rest
  end.

(** Lines away from the item: nothing in [o] carries the id of [item]. *)
Definition absent (item : Item.t) (o : Order) : Prop :=
  Forall (fun i => same_id item i = false) o.

(** The next [n] write requests are delivered. *)
Definition reliable (n : nat) (w : World) : Prop :=
  Forall (fun b => b = true) (firstn n (net w)).

(** The fields written by the table reset of a checkout. *)
Definition resetFields : gmap string Value :=
  <["order" := VItems []]>
  (<["total" := VNum 0]>
   (<["status" := VStr "Closed"]> ∅)).

(** A sample order and a sample store: table 3 is open with two teas. *)
Definition twoTeas : Order := [Line.mk "Tea" 20 "b7" 2].

Definition openTable3 : gmap string Value :=
  <["tableId" := VNum 3]>
  (<["status" := VStr "Open"]>
   (<["order" := VItems twoTeas]>
    (<["total" := VNum 40]>
     (<["lastUpdate" := VTimestamp 1704448000]> ∅)))).

(** The sample world, with the given fate of the coming requests; the
    clocks stand at 2024-01-05T10:00:00Z. *)
Definition sampleWorld (net : list bool) : World :=
  mkWorld (<["3" := openTable3]> ∅) [] 1704448800 1704448800000 net [] [].

(** The fields written by a save. *)
Definition saveFields (orderItems : Order) (total : Z) : gmap string Value :=
  <["order" := VItems orderItems]>
  (<["total" := VNum total]>
   (<["status" := VStr (if 0 <? Z.of_nat (length orderItems)
                        then "Open" else "Closed")]>
    (<["lastUpdate" := VServerTimestamp]> ∅))).

(** [a] may stand in front of [b] under the comparison function. *)
Definition sort_le {A : Type} (compareFn : A -> A -> Z) (a b : A) : Prop :=
  compareFn a b <= 0.

(** The order of the labels: [a] is at most [b], lexicographically. *)
Definition label_le (a b : ReportRow.t) : Prop :=
  String.compare (ReportRow.name a) (ReportRow.name b) <> Gt.

(** The sum of the [sales] of report rows, and of the [total] of sales. *)
Definition sumSales (rows : list ReportRow.t) : Z :=
  fold_right (fun row acc => ReportRow.sales row + acc) 0 rows.

Definition sumTotals (salesData : list Sale.t) : Z :=
  fold_right (fun sale acc => Sale.total sale + acc) 0 salesData.

(** The three sales of the report example, each stamped at noon UTC of its
    date. *)
Definition exampleSales : list Sale.t :=
  [ Sale.mk 1 [Line.mk "Live Dhokla" 50 "ns9" 1] 50 (Some 1704456000)
            "2024-01-05";
    Sale.mk 2 [Line.mk "Hot Coffee" 30 "b6" 1] 30 (Some 1704628800)
            "2024-01-07";
    Sale.mk 3 [Line.mk "Tea" 20 "b7" 1] 20 (Some 1706788800)
            "2024-02-01" ].

(** The same three sales as records that carry their [date] but no
    [timestamp]. *)
Definition unstampedSales : list Sale.t :=
  List.map (fun sale => Sale.mk (Sale.tableId sale) (Sale.items sale)
                                (Sale.total sale) None (Sale.date sale))
           exampleSales.

(** Local time is between twelve hours behind and fourteen hours ahead of
    UTC, as every time zone is. *)
Definition zoneOffset (localTZA : Z -> Z) : Prop :=
  forall t, -43200000 <= localTZA t <= 50400000.

(** Two time zones: UTC, and India Standard Time (UTC+05:30). *)
Definition utc : Z -> Z := fun _ => 0.
Definition ist : Z -> Z := fun _ => 19800000.

(** A string without the letter ['T'], and a check over a range of
    integers, used to describe the shape of the bucket keys. *)
Fixpoint no_T (s : string) : bool :=
  match s with
  | EmptyString => true
  | String c rest => negb (Ascii.eqb c "T"%char) && no_T rest
  end.

Fixpoint all_from (p : Z -> bool) (n : nat) (z : Z) : bool :=
  match n with
  | O => true
  | S n' => p z && all_from p n' (z + 1)
  end.

(** ** Further notions used to state properties of the cart *)

(** A cart as the modal keeps it: distinct line ids, quantities of at least
    one. *)
Definition cartOk (o : Order) : Prop :=
  NoDup (ids o) /\ Forall (fun l => 0 < Line.quantity l) o.

(** A run of quantity updates, each a menu entry and a delta, applied to a
    cart one after the other. *)
Definition applyUpdates (updates : list (Item.t * Z)) (o : Order) : Order :=
  fold_left (fun o u => updateItemQuantity (fst u) (snd u) o) updates o.

(** ** Further notions used to state properties of the handlers *)

(** The handler [m] keeps the property [P] of the world, whether it returns
    or throws. *)
Definition preserves {A} (P : World -> Prop) (m : M A) : Prop :=
  forall w, P w -> P (snd (m w)).

(** A table document as the program leaves it: under the reference of a
    table number it carries that number, an order, the total of that order,
    and the status that goes with the order being empty or not. *)
Definition tableOk (ref : string) (d : gmap string Value) : Prop :=
  exists i order,
    ref = tableRef i
    /\ 1 <= i <= 10
    /\ d !! "tableId" = Some (VNum i)
    /\ d !! "order" = Some (VItems order)
    /\ d !! "total" = Some (VNum (sum_price_quantity order))
    /\ d !! "status" = Some (VStr (match order with
                                   | [] => "Closed"
                                   | _ :: _ => "Open"
                                   end)).

Definition storeOk (w : World) : Prop :=
  forall ref d, tables w !! ref = Some d -> tableOk ref d.

(** A sale as a checkout from the modal records it. *)
Definition saleOk (sale : Sale.t) : Prop :=
  Sale.items sale <> []
  /\ Sale.total sale = sum_price_quantity (Sale.items sale)
  /\ is_Some (Sale.timestamp sale).

(** What a user of the program can do to the store: let the dashboard run
    its initialisation effect, and save or check out a cart from the modal
    of a table. *)
Inductive Action :=
| DoInit (isAuthReady : bool) (localTables : list (gmap string Value))
| DoSave (tableId : Z) (cart : Order)
| DoCheckout (tableId : Z) (cart : Order).

(** What the outside decides before an action: the two clocks and the fate
    of the coming requests. *)
Record Env := mkEnv {
  env_serverTime : Z;
  env_clientTime : Z;
  env_net : list bool
}.

Definition set_env (e : Env) (w : World) : World :=
  mkWorld (tables w) (sales w) (env_serverTime e) (env_clientTime e)
          (env_net e) (requests w) (console w).

Definition perform (db : option Firestore) (a : Action) (w : World) : World :=
  match a with
  | DoInit isAuthReady localTables =>
      exec (OrdersView.initEffect isAuthReady db localTables) w
  | DoSave tableId cart =>
      exec (OrderModal.handleSave (App.saveOrder db) tableId
              (OrderModal.init cart)) w
  | DoCheckout tableId cart =>
      exec (OrderModal.handleCheckout (App.handleCheckout db) tableId
              (OrderModal.init cart)) w
  end.

Definition run (db : option Firestore) (steps : list (Env * Action))
  (w : World) : World :=
  fold_left (fun w step => perform db (snd step) (set_env (fst step) w)) steps w.

(** A property of the two collections only is not disturbed by what a
    handler does to the network, the request log and the console. *)
Definition onStore (P : World -> Prop) : Prop :=
  forall w w', tables w' = tables w -> sales w' = sales w -> P w -> P w'.

(** Fields of an update that keep a table document well formed: an order
    with its total and its status, and no table number. *)
Definition fieldsOk (data : gmap string Value) : Prop :=
  exists order,
    data !! "tableId" = None
    /\ data !! "order" = Some (VItems order)
    /\ data !! "total" = Some (VNum (sum_price_quantity order))
    /\ data !! "status" = Some (VStr (match order with
                                      | [] => "Closed"
                                      | _ :: _ => "Open"
                                      end)).

(** A checkout of a cart that has a line: the only action that may record
    a sale. *)
Definition checksOut (step : Env * Action) : bool :=
  match snd step with
  | DoCheckout _ (_ :: _) => true
  | _ => false
  end.

(** The table documents after the merge writes of initialisation for the
    table numbers [xs], all delivered, on the documents [t]. *)
Definition initialised (now : Z) (xs : list Z)
  (t : gmap string (gmap string Value)) : gmap string (gmap string Value) :=
  fold_left
    (fun t i => <[tableRef i := (resolve now <$> OrdersView.initialTable i)
                                ∪ default ∅ (t !! tableRef i)]> t)
    xs t.

(** The table numbers the dashboard knows. *)
Definition tableNumbers : list Z := [1; 2; 3; 4; 5; 6; 7; 8; 9; 10].

(** ** The local copies of the collections, and the dashboard *)

(** [snapshot.docs] of a query on a whole collection: its documents, each
    with its id, in the order of the ids. *)
Definition compareIds (p q : string * gmap string Value) : Z :=
  match String.compare (fst p) (fst q) with
  | Lt => -1
  | Eq => 0
  | Gt => 1
  end.

Definition queryDocs (collection : gmap string (gmap string Value))
  : list (string * gmap string Value) :=
  sort compareIds (map_to_list collection).

(** [{ ...doc.data(), id: doc.id }] *)
Definition tableObject (doc : string * gmap string Value) : gmap string Value :=
  <["id" := VStr (fst doc)]> (snd doc).

(** [t.tableId], when it is a number. *)
Definition tableIdOf (t : gmap string Value) : option Z :=
  match t !! "tableId" with
  | Some (VNum n) => Some n
  | _ => None
  end.

(** [(a, b) => a.tableId - b.tableId], for table numbers that are numbers,
    as the program writes them; a difference that is not a number counts as
    0 for the sort. *)
Definition compareTableId (a b : gmap string Value) : Z :=
  match tableIdOf a, tableIdOf b with
  | Some x, Some y => x - y
  | _, _ => 0
  end.

(** The listener of the tables feed: the value given to [setTables]. *)
Definition onTablesSnapshot (docs : list (string * gmap string Value))
  : list (gmap string Value) :=
  sort compareTableId (List.map tableObject docs).

(** [{ tableId: num, status: 'Closed', total: 0 }] *)
Definition defaultTable (num : Z) : gmap string Value :=
  <["tableId" := VNum num]>
  (<["status" := VStr "Closed"]>
   (<["total" := VNum 0]> ∅)).

(** [t.tableId === num] *)
Definition hasTableId (num : Z) (t : gmap string Value) : bool :=
  match t !! "tableId" with
  | Some (VNum n) => n =? num
  | _ => false
  end.

(** [tables.find(t => t.tableId === num) || { tableId: num, ... }] *)
Definition tableData (tables : list (gmap string Value)) (num : Z)
  : gmap string Value :=
  match List.find (hasTableId num) tables with
  | Some t => t
  | None => defaultTable num
  end.

(** [tableData.status === 'Open'] *)
Definition isOpen (t : gmap string Value) : bool :=
  match t !! "status" with
  | Some (VStr s) => String.eqb s "Open"
  | _ => false
  end.

(** [n.toFixed(2)] for an integral number. *)
Definition toFixed2 (n : Z) : string := numberToString n ++ ".00".

(** [tableData.total ? tableData.total.toFixed(2) : '0.00']; [None] when
    the value is truthy and has no [toFixed], where the render throws. *)
Definition totalText (t : gmap string Value) : option string :=
  match t !! "total" with
  | None => Some "0.00"
  | Some (VNum n) => Some (if n =? 0 then "0.00" else toFixed2 n)
  | Some (VStr s) => if String.eqb s "" then Some "0.00" else None
  | Some _ => None
  end.

(** Table numbers in ascending order, each a number. *)
Definition tableIdLt (a b : gmap string Value) : Prop :=
  exists x y, tableIdOf a = Some x /\ tableIdOf b = Some y /\ x < y.

(** The documents of a collection are well formed. *)
Definition collectionOk (collection : gmap string (gmap string Value)) : Prop :=
  forall ref d, collection !! ref = Some d -> tableOk ref d.

(** ** Further notions used to state properties of the report *)

(** The key and the label of the bucket of the current day. *)
Definition todayBucket (localTZA : Z -> Z) (now : Z) (reportType : ReportType)
  : string * string :=
  let d := Date.ofDateString_today now in
  match reportType with
  | Daily =>
      (Date.split_T_0 (Date.toISOString d), Date.split_T_0 (Date.toISOString d))
  | Monthly =>
      (String.substring 0 7 (Date.toISOString d), Date.formatMonthYear localTZA d)
  | Yearly =>
      (numberToString (Date.getFullYear localTZA d),
       numberToString (Date.getFullYear localTZA d))
  end.

(** The labels of two rows in strictly ascending order. *)
Definition label_lt (a b : ReportRow.t) : Prop :=
  String.compare (ReportRow.name a) (ReportRow.name b) = Lt.

(** The entries of the menu, over its categories. *)
Definition menuItems : list Item.t := concat (List.map snd MENU_ITEMS).

(** Every line of the cart is a menu entry with a quantity. *)
Definition fromMenu (o : Order) : Prop :=
  Forall (fun l => exists item, In item menuItems
                                /\ l = Line.of_item item (Line.quantity l)) o.

(** Opening the modal on a table object: [useState(table.order)], then the
    first render, which computes [tableTotal] with [currentOrder.reduce];
    [None] when [table.order] is not an array, where that call throws. *)
Definition openModal (table : gmap string Value) : option OrderModal.State :=
  match table !! "order" with
  | Some (VItems order) => Some (OrderModal.init order)
  | _ => None
  end.

(** A world with nothing in the store. *)
Definition emptyWorld : World := mkWorld ∅ [] 0 0 [] [] [].

(** * Properties *)

(** ** Order cart *)

Example updateItemQuantity_add :
  updateItemQuantity (Item.mk "Tea" 20 "b7") 1 [] = [Line.mk "Tea" 20 "b7" 1].
Proof. reflexivity. Qed.

Example updateItemQuantity_add_big_delta :
  updateItemQuantity (Item.mk "Tea" 20 "b7") 5 [] = [Line.mk "Tea" 20 "b7" 1].
Proof. reflexivity. Qed.

Example updateItemQuantity_remove :
  updateItemQuantity (Item.mk "Tea" 20 "b7") (-2)
    [Line.mk "Fried Rice" 100 "ns5" 1; Line.mk "Tea" 20 "b7" 2]
  = [Line.mk "Fried Rice" 100 "ns5" 1].
Proof. reflexivity. Qed.

Lemma MENU_ITEMS_ids_distinct :
  NoDup (List.map Item.id (concat (List.map snd MENU_ITEMS))).
Proof. refine (bool_decide_unpack _ _). vm_compute. exact I. Qed.

Lemma same_id_true item i : same_id item i = true <-> Line.id i = Item.id item.
Proof. unfold same_id. apply String.eqb_eq. Qed.

Lemma same_id_false item i : same_id item i = false <-> Line.id i <> Item.id item.
Proof. unfold same_id. apply String.eqb_neq. Qed.

Lemma same_id_with_quantity item i q :
  same_id item (Line.with_quantity i q) = same_id item i.
Proof. reflexivity. Qed.

Lemma tableTotal_from sum o :
  fold_left (fun sum item => sum + Line.price item * Line.quantity item) o sum
  = sum + sum_price_quantity o.
Proof.
  revert sum. induction o as [|l o IH]; intros sum; simpl.
  - lia.
  - rewrite IH. lia.
Qed.

Lemma tableTotal_sum o : tableTotal o = sum_price_quantity o.
Proof. unfold tableTotal. rewrite tableTotal_from. lia. Qed.

Lemma absent_spec item o :
  absent item o <-> ~ In (Item.id item) (ids o).
Proof.
  unfold absent, ids. rewrite Forall_forall. split.
  - intros H Hin. apply in_map_iff in Hin as (i & Hi & Hin).
    specialize (H i). rewrite <- list_elem_of_In in Hin.
    apply H in Hin. apply same_id_false in Hin. congruence.
  - intros H i Hin. apply same_id_false. intros Heq. apply H.
    apply in_map_iff. exists i. split; [done|]. by apply list_elem_of_In.
Qed.

Lemma find_absent item o : absent item o -> List.find (same_id item) o = None.
Proof.
  induction 1 as [|i o Hi _ IH]; simpl; [done|]. by rewrite Hi.
Qed.

Lemma filter_absent item o :
  absent item o -> List.filter (fun i => negb (same_id item i)) o = o.
Proof.
  induction 1 as [|i o Hi _ IH]; simpl; [done|]. rewrite Hi. simpl. by f_equal.
Qed.

Lemma map_absent item o (f : Line.t -> Line.t) :
  absent item o ->
  List.map (fun i => if same_id item i then f i else i) o = o.
Proof.
  induction 1 as [|i o Hi _ IH]; simpl; [done|]. rewrite Hi. by f_equal.
Qed.

(** With distinct ids, a line of the item splits the order into two parts
    that do not mention the item. *)
Lemma split_absent item pre l post :
  NoDup (ids (pre ++ l :: post)) -> Line.id l = Item.id item ->
  absent item pre /\ absent item post.
Proof.
  unfold ids. rewrite map_app. simpl. intros Hnd Hid.
  apply NoDup_app in Hnd as (_ & Hpre & Hpost).
  apply NoDup_cons in Hpost as (Hpost & _).
  split; apply absent_spec; unfold ids; rewrite <- Hid.
  - intros Hin. apply (Hpre (Line.id l)).
    + by apply list_elem_of_In.
    + apply list_elem_of_here.
  - intros Hin. apply Hpost. by apply list_elem_of_In.
Qed.

Lemma find_split item pre l post :
  absent item pre -> Line.id l = Item.id item ->
  List.find (same_id item) (pre ++ l :: post) = Some l.
Proof.
  intros Hpre Hid. induction Hpre as [|i o Hi _ IH]; simpl.
  - apply same_id_true in Hid. by rewrite Hid.
  - by rewrite Hi.
Qed.

(** C6. [updateItemQuantity item delta] acts as follows. If the order, its
    line ids being distinct, has a line [l] with the id of the item, the
    quantity of that line becomes [quantity l + delta], the line staying in
    place, unless that quantity is at most 0, in which case the line is
    removed. If the order has no such line and [delta > 0], a line of
    quantity 1 is appended, whatever the size of [delta]. If the order has no
    such line and [delta <= 0], the order is returned unchanged. *)
Theorem updateItemQuantity_spec (item : Item.t) (delta : Z) (order : Order) :
  (NoDup (ids order) ->
   forall pre l post,
     order = pre ++ l :: post -> Line.id l = Item.id item ->
     (Line.quantity l + delta <= 0 ->
      updateItemQuantity item delta order = pre ++ post)
     /\ (0 < Line.quantity l + delta ->
         updateItemQuantity item delta order
         = pre ++ Line.mk (Line.name l) (Line.price l) (Line.id l)
                          (Line.quantity l + delta) :: post))
  /\ (~ In (Item.id item) (ids order) ->
      (0 < delta ->
       updateItemQuantity item delta order
       = order ++ [Line.mk (Item.name item) (Item.price item) (Item.id item) 1])
      /\ (delta <= 0 -> updateItemQuantity item delta order = order)).
Proof.
  split.
  - intros Hnd pre l post -> Hid.
    destruct (split_absent item pre l post Hnd Hid) as [Hpre Hpost].
    unfold updateItemQuantity. rewrite (find_split item pre l post Hpre Hid).
    pose proof (proj2 (same_id_true item l) Hid) as Hl.
    split; intros Hq; cbv zeta.
    + destruct (Z.leb_spec (Line.quantity l + delta) 0) as [_|Hgt]; [|lia].
      rewrite List.filter_app. simpl. rewrite Hl. simpl.
      by rewrite !filter_absent.
    + destruct (Z.leb_spec (Line.quantity l + delta) 0) as [Hle|_]; [lia|].
      rewrite map_app. simpl. rewrite Hl.
      by rewrite !map_absent.
  - intros Hnone. apply absent_spec in Hnone.
    unfold updateItemQuantity. rewrite (find_absent item order Hnone).
    split; intros Hd.
    + destruct (Z.gtb_spec delta 0) as [_|Hle]; [done|lia].
    + destruct (Z.gtb_spec delta 0) as [Hgt|_]; [lia|done].
Qed.

Lemma updateItemQuantity_spec_witness :
  NoDup (ids [Line.mk "Fried Rice" 100 "ns5" 1; Line.mk "Tea" 20 "b7" 2])
  /\ updateItemQuantity (Item.mk "Tea" 20 "b7") 3
       [Line.mk "Fried Rice" 100 "ns5" 1; Line.mk "Tea" 20 "b7" 2]
     = [Line.mk "Fried Rice" 100 "ns5" 1; Line.mk "Tea" 20 "b7" 5]
  /\ updateItemQuantity (Item.mk "Oreo Shake" 100 "b1") 4
       [Line.mk "Fried Rice" 100 "ns5" 1; Line.mk "Tea" 20 "b7" 2]
     = [Line.mk "Fried Rice" 100 "ns5" 1; Line.mk "Tea" 20 "b7" 2;
        Line.mk "Oreo Shake" 100 "b1" 1].
Proof.
  assert (Hnd : NoDup (ids [Line.mk "Fried Rice" 100 "ns5" 1;
                            Line.mk "Tea" 20 "b7" 2])).
  { refine (bool_decide_unpack _ _). vm_compute. exact I. }
  split; [exact Hnd|]. split.
  - refine (proj2 (proj1 (updateItemQuantity_spec (Item.mk "Tea" 20 "b7") 3 _) Hnd
                     [Line.mk "Fried Rice" 100 "ns5" 1]
                     (Line.mk "Tea" 20 "b7" 2) [] eq_refl eq_refl) _).
    simpl. lia.
  - refine (proj1 (proj2 (updateItemQuantity_spec
                            (Item.mk "Oreo Shake" 100 "b1") 4 _) _) _).
    + vm_compute. intros H. repeat destruct H as [H|H]; try discriminate H; done.
    + lia.
Defined.

(** C10. [updateItemQuantity item delta] leaves the lines whose id differs
    from the id of the item as they are (all four fields) and in the same
    relative order: the sequence of those lines is the same before and
    after. Consequently it keeps the line ids pairwise distinct. *)
Theorem updateItemQuantity_frame (item : Item.t) (delta : Z) (order : Order) :
  List.filter (fun i => negb (same_id item i))
              (updateItemQuantity item delta order)
  = List.filter (fun i => negb (same_id item i)) order
  /\ (NoDup (ids order) -> NoDup (ids (updateItemQuantity item delta order))).
Proof.
  unfold updateItemQuantity.
  destruct (List.find (same_id item) order) as [existingItem|] eqn:Hfind.
  - cbv zeta. destruct (Line.quantity existingItem + delta <=? 0).
    + split.
      * induction order as [|i o IH]; simpl; [done|].
        destruct (same_id item i) eqn:Hi; simpl; [|rewrite Hi; simpl].
        -- clear IH Hfind. induction o as [|j o IH]; simpl; [done|].
           destruct (same_id item j) eqn:Hj; simpl; [done|].
           rewrite Hj. simpl. by f_equal.
        -- f_equal. clear IH Hfind. induction o as [|j o IH]; simpl; [done|].
           destruct (same_id item j) eqn:Hj; simpl; [done|].
           rewrite Hj. simpl. by f_equal.
      * intros Hnd. clear Hfind. unfold ids in *.
        induction order as [|i o IH]; simpl; [constructor|].
        simpl in Hnd. apply NoDup_cons in Hnd as [Hni Hnd].
        destruct (same_id item i); simpl; [by apply IH|].
        apply NoDup_cons. split; [|by apply IH].
        intros Hin. apply Hni. apply list_elem_of_In in Hin.
        apply in_map_iff in Hin as (j & Hj & Hin).
        apply filter_In in Hin as [Hin _].
        apply list_elem_of_In. apply in_map_iff. eauto.
    + split.
      * clear Hfind. induction order as [|i o IH]; simpl; [done|].
        destruct (same_id item i) eqn:Hi.
        -- rewrite same_id_with_quantity, Hi. simpl. exact IH.
        -- rewrite Hi. simpl. by f_equal.
      * intros Hnd. unfold ids. rewrite List.map_map.
        erewrite map_ext; [exact Hnd|].
        intros i. by destruct (same_id item i).
  - destruct (delta >? 0); [|done]. split.
    + rewrite List.filter_app. simpl.
      assert (Hnew : same_id item (Line.of_item item 1) = true)
        by (apply same_id_true; reflexivity).
      rewrite Hnew. simpl. by rewrite app_nil_r.
    + intros Hnd. unfold ids. rewrite map_app. simpl.
      apply NoDup_app. split; [exact Hnd|]. split.
      * intros x Hx Hx'. apply list_elem_of_In in Hx' as [<-|[]].
        apply list_elem_of_In in Hx.
        apply in_map_iff in Hx as (i & Hi & Hin).
        eapply find_none in Hfind; [|exact Hin].
        apply same_id_false in Hfind. auto.
      * apply NoDup_singleton.
Qed.

Lemma updateItemQuantity_frame_witness :
  NoDup (ids [Line.mk "Fried Rice" 100 "ns5" 1; Line.mk "Tea" 20 "b7" 2])
  /\ NoDup (ids (updateItemQuantity (Item.mk "Tea" 20 "b7") (-2)
                   [Line.mk "Fried Rice" 100 "ns5" 1; Line.mk "Tea" 20 "b7" 2])).
Proof.
  assert (Hnd : NoDup (ids [Line.mk "Fried Rice" 100 "ns5" 1;
                            Line.mk "Tea" 20 "b7" 2])).
  { refine (bool_decide_unpack _ _). vm_compute. exact I. }
  split; [exact Hnd|].
  exact (proj2 (updateItemQuantity_frame (Item.mk "Tea" 20 "b7") (-2) _) Hnd).
Defined.

(** ** The store *)

Lemma lookup_merge_Some (data old : gmap string Value) now k v :
  data !! k = Some v ->
  ((resolve now <$> data) ∪ old) !! k = Some (resolve now v).
Proof.
  intros H. apply lookup_union_Some_l. by rewrite lookup_fmap, H.
Qed.

Lemma lookup_merge_None (data old : gmap string Value) now k :
  data !! k = None ->
  ((resolve now <$> data) ∪ old) !! k = old !! k.
Proof.
  intros H. apply lookup_union_r. by rewrite lookup_fmap, H.
Qed.

Lemma delivered_reliable n w :
  reliable (S n) w ->
  exists rest, delivered w = (true, set_net w rest)
               /\ Forall (fun b => b = true) (firstn n rest).
Proof.
  unfold reliable, delivered. destruct w as [t s st ct nt rq co]; simpl.
  destruct nt as [|b rest]; simpl.
  - intros _. exists []. split; [done|]. by destruct n.
  - intros H. apply Forall_cons in H as [-> H]. by exists rest.
Qed.

(** What a checkout does when both of its requests are delivered and the
    table document exists. *)
Lemma handleCheckout_ok tableId orderItems total w doc n :
  tables w !! tableRef tableId = Some doc ->
  reliable (S (S n)) w ->
  exists sale w',
    App.handleCheckout (Some firestore) tableId orderItems total w = (Ok tt, w')
    /\ sale = Sale.mk tableId orderItems total (Some (serverTime w))
                      (Date.split_T_0 (Date.toISOString (clientTime w)))
    /\ sales w' = sales w ++ [sale]
    /\ tables w'
       = <[tableRef tableId := (resolve (serverTime w) <$> resetFields) ∪ doc]>
           (tables w)
    /\ requests w'
       = requests w ++ [(WAddDoc sale, true);
                        (WUpdateDoc (tableRef tableId) resetFields, true)]
    /\ reliable n w'.
Proof.
  intros Hdoc Hrel.
  destruct (delivered_reliable (S n) w Hrel) as (rest1 & Hd1 & Hrel1).
  destruct (delivered_reliable n (record_request
              (set_sales (set_net w rest1)
                 (sales w ++ [Sale.mk tableId orderItems total
                    (Some (serverTime w))
                    (Date.split_T_0 (Date.toISOString (clientTime w)))]))
              (WAddDoc (Sale.mk tableId orderItems total
                    (Some (serverTime w))
                    (Date.split_T_0 (Date.toISOString (clientTime w))))) true))
    as (rest2 & Hd2 & Hrel2); [exact Hrel1|].
  eexists _, _. split; [|split; [reflexivity|]].
  - unfold App.handleCheckout, try_catch, bind, new_Date, addDoc, updateDoc.
    rewrite Hd1. cbn [set_net set_sales record_request serverTime sales tables
                      net requests console clientTime].
    fold resetFields. cbn in Hd2. rewrite Hd2.
    cbn [set_net set_sales record_request serverTime sales tables
                      net requests console clientTime].
    rewrite Hdoc. reflexivity.
  - cbn. rewrite <- app_assoc. done.
Qed.

Lemma field_after_reset name v tableId (w w' : World) doc :
  resetFields !! name = Some v ->
  tables w'
  = <[tableRef tableId := (resolve (serverTime w) <$> resetFields) ∪ doc]>
      (tables w) ->
  field name w' tableId = Some (resolve (serverTime w) v).
Proof.
  intros Hv Ht. unfold field. rewrite Ht, lookup_insert_eq.
  by apply lookup_merge_Some.
Qed.

(** ** Checkout *)



(** C2. A checkout attempted from the modal on an order with no lines is
    refused on the spot with the validation message: the checkout callback
    is not called, so the world is left exactly as it was (no request is
    issued, no sale is appended, no table is changed). *)
Theorem empty_checkout_rejected
  (onCheckout : Z -> Order -> Z -> M unit) (tableId : Z)
  (st : OrderModal.State) (w : World) :
  OrderModal.currentOrder st = [] ->
  OrderModal.handleCheckout onCheckout tableId st w
  = (Ok (OrderModal.setMessage "Cannot checkout an empty order." st), w)
  /\ let w' := exec (OrderModal.handleCheckout onCheckout tableId st) w in
     requests w' = requests w /\ sales w' = sales w /\ tables w' = tables w.
Proof.
  intros Hempty. unfold exec, OrderModal.handleCheckout.
  rewrite Hempty. cbn. done.
Qed.

Lemma empty_checkout_rejected_witness :
  OrderModal.handleCheckout (App.handleCheckout (Some firestore)) 3
    (OrderModal.init []) (sampleWorld [])
  = (Ok (OrderModal.setMessage "Cannot checkout an empty order."
           (OrderModal.init [])), sampleWorld [])
  /\ let w' := exec (OrderModal.handleCheckout
                       (App.handleCheckout (Some firestore)) 3
                       (OrderModal.init [])) (sampleWorld []) in
     requests w' = requests (sampleWorld [])
     /\ sales w' = sales (sampleWorld [])
     /\ tables w' = tables (sampleWorld []).
Proof.
  apply (empty_checkout_rejected (App.handleCheckout (Some firestore)) 3
           (OrderModal.init []) (sampleWorld [])).
  reflexivity.
Defined.

(** The requests of one checkout: none, a failed sale append, or a committed
    sale append followed by the table reset. *)
Lemma handleCheckout_cases db tableId orderItems total w :
  let w' := exec (App.handleCheckout db tableId orderItems total) w in
  let sale := Sale.mk tableId orderItems total (Some (serverTime w))
                (Date.split_T_0 (Date.toISOString (clientTime w))) in
  (requests w' = requests w /\ sales w' = sales w /\ tables w' = tables w)
  \/ (requests w' = requests w ++ [(WAddDoc sale, false)]
      /\ sales w' = sales w /\ tables w' = tables w)
  \/ (requests w' = requests w ++ [(WAddDoc sale, true);
                                   (WUpdateDoc (tableRef tableId) resetFields,
                                    false)]
      /\ sales w' = sales w ++ [sale] /\ tables w' = tables w)
  \/ (exists doc,
         tables w !! tableRef tableId = Some doc
         /\ requests w' = requests w ++ [(WAddDoc sale, true);
                                         (WUpdateDoc (tableRef tableId)
                                                     resetFields, true)]
         /\ sales w' = sales w ++ [sale]
         /\ tables w'
            = <[tableRef tableId
                := (resolve (serverTime w) <$> resetFields) ∪ doc]> (tables w)).
Proof.
  destruct db as [[]|]; [|left; done].
  destruct w as [t s st ct nt rq co].
  unfold exec, App.handleCheckout, try_catch, bind, new_Date, addDoc, updateDoc,
    console_error, delivered.
  fold resetFields.
  cbn [net set_net set_sales set_tables record_request print serverTime sales
       tables requests console clientTime].
  assert (Hassoc : forall (a b : Write * bool), (rq ++ [a]) ++ [b] = rq ++ [a; b])
    by (intros; by rewrite <- app_assoc).
  repeat first
    [ progress cbn [net set_net set_sales set_tables record_request print
                    serverTime sales tables requests console clientTime snd]
    | match goal with
      | |- context [match ?l with [] => _ | _ :: _ => _ end] =>
          is_var l; destruct l as [|[] ?]
      | |- context [t !! tableRef tableId] =>
          destruct (t !! tableRef tableId) as [doc|] eqn:Hdoc
      end ];
    rewrite ?Hassoc;
    first [ right; left; done
          | right; right; left; done
          | right; right; right; exists doc; done ].
Qed.

(** C3. In every execution of a checkout the sale append comes first: the
    table reset is requested only once the sale append has been committed,
    and the sale is then in the sales collection. When the sale append is
    committed and the table reset fails, the sale stays recorded and no table
    document is changed, so a table that was open is still open. *)
Theorem checkout_sale_first
  (db : option Firestore) (tableId : Z) (order : Order) (total : Z) (w : World) :
  let w' := exec (App.handleCheckout db tableId order total) w in
  exists evs,
    requests w' = requests w ++ evs
    /\ (forall pre ref data ok post,
           evs = pre ++ (WUpdateDoc ref data, ok) :: post ->
           exists sale, pre = [(WAddDoc sale, true)]
                        /\ sales w' = sales w ++ [sale])
    /\ (forall sale ref data,
           evs = [(WAddDoc sale, true); (WUpdateDoc ref data, false)] ->
           sales w' = sales w ++ [sale]
           /\ Sale.items sale = order
           /\ Sale.total sale = total
           /\ tables w' = tables w
           /\ (field "status" w tableId = Some (VStr "Open") ->
               field "status" w' tableId = Some (VStr "Open"))).
Proof.
  intros w'.
  destruct (handleCheckout_cases db tableId order total w)
    as [(Hr & Hs & Ht) | [(Hr & Hs & Ht) | [(Hr & Hs & Ht) | (doc & _ & Hr & Hs & Ht)]]];
    fold w' in Hr, Hs, Ht.
  - exists []. rewrite app_nil_r. split; [done|]. split.
    + intros [|? ?] ? ? ? ? [=].
    + intros ? ? ? [=].
  - eexists. split; [exact Hr|]. split.
    + intros [|? [|? ?]] ? ? ? ? [=].
    + intros ? ? ? [=].
  - eexists. split; [exact Hr|]. split.
    + intros [|? [|? [|? ?]]] ? ? ? ? [=]. subst. eauto.
    + intros ? ? ? [= <- _ _]. repeat split; try done.
      unfold field. by rewrite Ht.
  - eexists. split; [exact Hr|]. split.
    + intros [|? [|? [|? ?]]] ? ? ? ? [=]. subst. eauto.
    + intros ? ? ? [=].
Qed.

Lemma checkout_sale_first_witness :
  let w := sampleWorld [true; false] in
  let w' := exec (App.handleCheckout (Some firestore) 3 twoTeas 40) w in
  field "status" w 3 = Some (VStr "Open")
  /\ sales w' = [Sale.mk 3 twoTeas 40 (Some 1704448800) "2024-01-05"]
  /\ field "status" w' 3 = Some (VStr "Open").
Proof.
  intros w w'.
  assert (Hopen : field "status" w 3 = Some (VStr "Open"))
    by (vm_compute; reflexivity).
  destruct (checkout_sale_first (Some firestore) 3 twoTeas 40 w)
    as (evs & Hevs & _ & Hfail).
  assert (Hev : evs = [(WAddDoc (Sale.mk 3 twoTeas 40 (Some 1704448800)
                                         "2024-01-05"), true);
                       (WUpdateDoc "3" resetFields, false)]).
  { apply (app_inv_head (requests w)). rewrite <- Hevs.
    vm_compute. reflexivity. }
  destruct (Hfail _ _ _ Hev) as (Hs & _ & _ & _ & Hst).
  split; [exact Hopen|]. split; [exact Hs|]. exact (Hst Hopen).
Defined.

(** ** Save *)

(** The requests of one save: none, a failed update, or a committed one. *)
Lemma saveOrder_cases db tableId orderItems total w :
  let w' := exec (App.saveOrder db tableId orderItems total) w in
  (requests w' = requests w /\ tables w' = tables w)
  \/ (requests w'
      = requests w ++ [(WUpdateDoc (tableRef tableId)
                                   (saveFields orderItems total), false)]
      /\ tables w' = tables w)
  \/ (exists doc,
         tables w !! tableRef tableId = Some doc
         /\ requests w'
            = requests w ++ [(WUpdateDoc (tableRef tableId)
                                         (saveFields orderItems total), true)]
         /\ tables w'
            = <[tableRef tableId
                := (resolve (serverTime w) <$> saveFields orderItems total)
                   ∪ doc]> (tables w)).
Proof.
  destruct db as [[]|]; [|left; done].
  destruct w as [t s st ct nt rq co].
  unfold exec, App.saveOrder, try_catch, bind, updateDoc, console_error,
    delivered.
  fold (saveFields orderItems total).
  repeat first
    [ progress cbn [net set_net set_sales set_tables record_request print
                    serverTime sales tables requests console clientTime snd]
    | match goal with
      | |- context [match ?l with [] => _ | _ :: _ => _ end] =>
          is_var l; destruct l as [|[] ?]
      | |- context [t !! tableRef tableId] =>
          destruct (t !! tableRef tableId) as [doc|] eqn:Hdoc
      end ];
    first [ right; left; done
          | right; right; exists doc; done ].
Qed.

Lemma handleSave_exec onSave tableId st w :
  exec (OrderModal.handleSave onSave tableId st) w
  = exec (onSave tableId (OrderModal.currentOrder st)
                 (tableTotal (OrderModal.currentOrder st))) w.
Proof.
  unfold exec, OrderModal.handleSave, bind.
  by destruct (onSave _ _ _ w) as [[a|e] w1].
Qed.

(** C7. Whenever a save from the modal is committed, the table document
    holds the saved order, its total is the sum over the lines of that order
    of price times quantity, and its status is [Open] exactly when the order
    has a line and [Closed] exactly when it has none, in which case the total
    is 0. *)
Theorem save_persists_total_and_status
  (db : option Firestore) (tableId : Z) (st : OrderModal.State) (w : World) :
  let w' := exec (OrderModal.handleSave (App.saveOrder db) tableId st) w in
  let order := OrderModal.currentOrder st in
  (exists request, requests w' = requests w ++ [(request, true)]) ->
  field "order" w' tableId = Some (VItems order)
  /\ field "total" w' tableId = Some (VNum (sum_price_quantity order))
  /\ (field "status" w' tableId = Some (VStr "Open") <-> order <> [])
  /\ (field "status" w' tableId = Some (VStr "Closed") <-> order = [])
  /\ (order = [] -> field "total" w' tableId = Some (VNum 0)).
Proof.
  intros w' order. subst w'. rewrite handleSave_exec. fold order.
  intros (request & Hreq).
  destruct (saveOrder_cases db tableId order (tableTotal order) w)
    as [(Hr & _) | [(Hr & _) | (doc & _ & _ & Ht)]].
  - rewrite Hr in Hreq. rewrite <- (app_nil_r (requests w)) in Hreq at 1.
    apply app_inv_head in Hreq. discriminate.
  - rewrite Hr in Hreq. apply app_inv_head in Hreq. discriminate.
  - assert (Hfield : forall name v,
               saveFields order (tableTotal order) !! name = Some v ->
               field name (exec (App.saveOrder db tableId order
                                   (tableTotal order)) w) tableId
               = Some (resolve (serverTime w) v)).
    { intros name v Hv. unfold field. rewrite Ht, lookup_insert_eq.
      by apply lookup_merge_Some. }
    rewrite (Hfield "order" (VItems order) eq_refl).
    rewrite (Hfield "total" (VNum (tableTotal order)) eq_refl).
    rewrite (Hfield "status" _ eq_refl).
    cbn [resolve]. rewrite tableTotal_sum.
    split; [done|]. split; [done|].
    destruct order as [|l order]; cbn; repeat split; try done.
Qed.

Lemma save_persists_total_and_status_witness :
  let st := OrderModal.mkState
              [Line.mk "Tea" 20 "b7" 2; Line.mk "Fried Rice" 100 "ns5" 1] "" in
  let w' := exec (OrderModal.handleSave (App.saveOrder (Some firestore)) 3 st)
                 (sampleWorld []) in
  field "order" w' 3 = Some (VItems (OrderModal.currentOrder st))
  /\ field "total" w' 3 = Some (VNum 140)
  /\ field "status" w' 3 = Some (VStr "Open").
Proof.
  intros st w'.
  destruct (save_persists_total_and_status (Some firestore) 3 st (sampleWorld []))
    as (Ho & Ht & Hs & _).
  - eexists. vm_compute. reflexivity.
  - split; [exact Ho|]. split; [exact Ht|]. apply Hs. discriminate.
Defined.

(** ** Retrying a checkout *)

(** A checkout whose sale append is delivered and whose table reset is not. *)
Lemma handleCheckout_partial tableId orderItems total w rest :
  net w = true :: false :: rest ->
  let w1 := exec (App.handleCheckout (Some firestore) tableId orderItems total) w in
  sales w1 = sales w ++ [Sale.mk tableId orderItems total (Some (serverTime w))
                           (Date.split_T_0 (Date.toISOString (clientTime w)))]
  /\ tables w1 = tables w
  /\ net w1 = rest
  /\ serverTime w1 = serverTime w
  /\ clientTime w1 = clientTime w.
Proof.
  destruct w as [t s st ct nt rq co]. cbn [net]. intros ->.
  unfold exec, App.handleCheckout, try_catch, bind, new_Date, addDoc, updateDoc,
    console_error, delivered.
  cbn. done.
Qed.

Lemma resolve_resetFields now : resolve now <$> resetFields = resetFields.
Proof.
  apply map_eq. intros k. rewrite lookup_fmap.
  unfold resetFields.
  destruct (decide (k = "order")) as [->|H1]; [done|].
  destruct (decide (k = "total")) as [->|H2]; [done|].
  destruct (decide (k = "status")) as [->|H3]; [done|].
  by rewrite !lookup_insert_ne, lookup_empty by done.
Qed.

Lemma updateDoc_ok ref data w doc n :
  tables w !! ref = Some doc ->
  reliable (S n) w ->
  exists w',
    updateDoc ref data w = (Ok tt, w')
    /\ tables w' = <[ref := (resolve (serverTime w) <$> data) ∪ doc]> (tables w)
    /\ sales w' = sales w
    /\ serverTime w' = serverTime w
    /\ reliable n w'.
Proof.
  intros Hdoc Hrel.
  destruct (delivered_reliable n w Hrel) as (rest & Hd & Hrest).
  unfold updateDoc. rewrite Hd. cbn [set_net tables serverTime].
  rewrite Hdoc. eexists. split; [reflexivity|]. cbn. done.
Qed.

(** The table reset, the second write of a checkout. *)
Lemma reset_idempotent tableId w doc :
  tables w !! tableRef tableId = Some doc ->
  reliable 2 w ->
  let w1 := exec (updateDoc (tableRef tableId) resetFields) w in
  let w2 := exec (updateDoc (tableRef tableId) resetFields) w1 in
  tables w1 = <[tableRef tableId := resetFields ∪ doc]> (tables w)
  /\ tables w2 = tables w1.
Proof.
  intros Hdoc Hrel w1 w2.
  destruct (updateDoc_ok (tableRef tableId) resetFields w doc 1 Hdoc Hrel)
    as (w1' & Hrun1 & Ht1 & _ & _ & Hrel1).
  assert (Hw1 : w1 = w1') by (unfold w1, exec; by rewrite Hrun1).
  rewrite resolve_resetFields in Ht1.
  assert (Hdoc1 : tables w1' !! tableRef tableId = Some (resetFields ∪ doc))
    by (by rewrite Ht1, lookup_insert_eq).
  destruct (updateDoc_ok (tableRef tableId) resetFields w1' _ 0 Hdoc1 Hrel1)
    as (w2' & Hrun2 & Ht2 & _).
  assert (Hw2 : w2 = w2') by (unfold w2, exec; by rewrite Hw1, Hrun2).
  rewrite Hw2, Hw1. split; [exact Ht1|].
  rewrite Ht2, resolve_resetFields, Ht1, insert_insert_eq.
  by rewrite (assoc_L (∪)), (idemp_L (∪)).
Qed.

(** C9, as the code has it. After a checkout whose sale append was committed
    and whose table reset failed, the sale is recorded and the table is
    unchanged; a retry of the checkout for the same table and order, once
    delivered, appends a second sale with the same table, items and total
    (nothing identifies the retry as a repetition) and closes the table; and
    repeating the table reset after that leaves every table document as it
    is. *)
Theorem retry_appends_second_sale
  (tableId : Z) (order : Order) (total : Z) (w : World)
  (doc : gmap string Value) (rest : list bool) :
  tables w !! tableRef tableId = Some doc ->
  net w = true :: false :: rest ->
  Forall (fun b => b = true) (firstn 3 rest) ->
  let checkout := App.handleCheckout (Some firestore) tableId order total in
  let w1 := exec checkout w in
  let w2 := exec checkout w1 in
  let w3 := exec (updateDoc (tableRef tableId) resetFields) w2 in
  (exists s1 s2,
      sales w1 = sales w ++ [s1]
      /\ tables w1 = tables w
      /\ sales w2 = sales w ++ [s1; s2]
      /\ Sale.tableId s1 = tableId /\ Sale.tableId s2 = tableId
      /\ Sale.items s1 = order /\ Sale.items s2 = order
      /\ Sale.total s1 = total /\ Sale.total s2 = total)
  /\ field "order" w2 tableId = Some (VItems [])
  /\ field "total" w2 tableId = Some (VNum 0)
  /\ field "status" w2 tableId = Some (VStr "Closed")
  /\ tables w3 = tables w2.
Proof.
  intros Hdoc Hnet Hrest checkout w1 w2 w3.
  destruct (handleCheckout_partial tableId order total w rest Hnet)
    as (Hs1 & Ht1 & Hn1 & Hst1 & Hct1).
  fold checkout in Hs1, Ht1, Hn1, Hst1, Hct1.
  fold w1 in Hs1, Ht1, Hn1, Hst1, Hct1.
  assert (Hdoc1 : tables w1 !! tableRef tableId = Some doc) by (by rewrite Ht1).
  assert (Hrel1 : reliable 3 w1) by (unfold reliable; by rewrite Hn1).
  destruct (handleCheckout_ok tableId order total w1 doc 1 Hdoc1 Hrel1)
    as (s2 & w2' & Hrun2 & Hs2eq & Hs2 & Ht2 & _ & Hrel2).
  assert (Hw2 : w2 = w2') by (unfold w2, exec, checkout; by rewrite Hrun2).
  rewrite <- Hw2 in Hs2, Ht2, Hrel2.
  split; [|split; [|split; [|split]]].
  - eexists _, s2. split; [exact Hs1|]. split; [exact Ht1|].
    split; [by rewrite Hs2, Hs1, <- app_assoc|].
    subst s2. cbn. done.
  - exact (field_after_reset "order" _ tableId w1 w2 doc eq_refl Ht2).
  - exact (field_after_reset "total" _ tableId w1 w2 doc eq_refl Ht2).
  - exact (field_after_reset "status" _ tableId w1 w2 doc eq_refl Ht2).
  - assert (Hdoc2 : tables w2 !! tableRef tableId
                    = Some ((resolve (serverTime w1) <$> resetFields) ∪ doc))
      by (by rewrite Ht2, lookup_insert_eq).
    destruct (updateDoc_ok (tableRef tableId) resetFields w2 _ 0 Hdoc2 Hrel2)
      as (w3' & Hrun3 & Ht3 & _).
    assert (Hw3 : w3 = w3') by (unfold w3, exec; by rewrite Hrun3).
    rewrite Hw3, Ht3, Ht2, insert_insert_eq, !resolve_resetFields.
    by rewrite (assoc_L (∪)), (idemp_L (∪)).
Qed.

Lemma retry_appends_second_sale_witness :
  let w := sampleWorld [true; false] in
  let checkout := App.handleCheckout (Some firestore) 3 twoTeas 40 in
  let w1 := exec checkout w in
  let w2 := exec checkout w1 in
  let w3 := exec (updateDoc (tableRef 3) resetFields) w2 in
  (exists s1 s2,
      sales w1 = sales w ++ [s1]
      /\ tables w1 = tables w
      /\ sales w2 = sales w ++ [s1; s2]
      /\ Sale.tableId s1 = 3 /\ Sale.tableId s2 = 3
      /\ Sale.items s1 = twoTeas /\ Sale.items s2 = twoTeas
      /\ Sale.total s1 = 40 /\ Sale.total s2 = 40)
  /\ field "order" w2 3 = Some (VItems [])
  /\ field "total" w2 3 = Some (VNum 0)
  /\ field "status" w2 3 = Some (VStr "Closed")
  /\ tables w3 = tables w2.
Proof.
  apply (retry_appends_second_sale 3 twoTeas 40 (sampleWorld [true; false])
           openTable3 []).
  - reflexivity.
  - reflexivity.
  - simpl. constructor.
Defined.

(** C9, as stated, fails: on the sample store, a checkout of table 3 whose
    table reset fails records one sale and leaves the table open, and the
    retry of that checkout records a second sale. *)
Lemma retry_records_second_sale :
  let w := sampleWorld [true; false] in
  let checkout := App.handleCheckout (Some firestore) 3 twoTeas 40 in
  let w1 := exec checkout w in
  let w2 := exec checkout w1 in
  length (sales w1) = 1%nat
  /\ field "status" w1 3 = Some (VStr "Open")
  /\ ~ (sales w2 = sales w1)
  /\ length (sales w2) = 2%nat.
Proof.
  vm_compute. repeat split; try reflexivity. discriminate.
Qed.

(** ** Table initialisation *)

(** A delivered merge write replaces every field it names, whatever the
    document held before. *)
Lemma setDoc_merge_overwrites ref data w k v :
  reliable 1 w ->
  data !! k = Some v ->
  exists d,
    tables (exec (setDoc_merge ref data) w) !! ref = Some d
    /\ d !! k = Some (resolve (serverTime w) v).
Proof.
  intros Hrel Hk.
  destruct (delivered_reliable 0 w Hrel) as (rest & Hd & _).
  unfold exec, setDoc_merge. rewrite Hd. cbn.
  eexists. split; [apply lookup_insert_eq|]. by apply lookup_merge_Some.
Qed.

(** C8, on the code. The store holds table 3, open, with two teas and a
    total of 40; the local copy of the tables is still empty, so the
    initialisation effect runs. Its merge write for table 3 names [order],
    [total] and [status], and replaces them: the table ends closed, with an
    empty order and a total of 0. Only the field the write does not name,
    [lastUpdate], is kept. *)
Theorem init_overwrites_open_table :
  let w := sampleWorld [] in
  let w' := exec (OrdersView.initEffect true (Some firestore) []) w in
  (field "order" w 3 = Some (VItems twoTeas)
   /\ field "total" w 3 = Some (VNum 40)
   /\ field "status" w 3 = Some (VStr "Open"))
  /\ (field "order" w' 3 = Some (VItems [])
      /\ field "total" w' 3 = Some (VNum 0)
      /\ field "status" w' 3 = Some (VStr "Closed"))
  /\ field "lastUpdate" w' 3 = field "lastUpdate" w 3.
Proof.
  vm_compute. repeat split; reflexivity.
Qed.

(** ** Sorting *)

Section SortFacts.
Context {A : Type}.
Variable compareFn : A -> A -> Z.

Lemma sort_insert_perm x (l : list A) :
  Permutation (sort_insert compareFn x l) (x :: l).
Proof.
  induction l as [|y l IH]; simpl; [done|].
  destruct (compareFn x y <=? 0); [done|].
  rewrite IH. apply perm_swap.
Qed.

Lemma sort_perm (l : list A) : Permutation (sort compareFn l) l.
Proof.
  induction l as [|x l IH]; simpl; [done|].
  rewrite sort_insert_perm. by constructor.
Qed.

(** The comparison function orders any two elements one way or the other. *)
Hypothesis compareFn_total : forall x y, 0 < compareFn x y -> compareFn y x <= 0.

Lemma sort_insert_HdRel a x (l : list A) :
  sort_le compareFn a x -> HdRel (sort_le compareFn) a l ->
  HdRel (sort_le compareFn) a (sort_insert compareFn x l).
Proof.
  intros Hax Hal. destruct l as [|y l]; simpl; [by constructor|].
  destruct (compareFn x y <=? 0); constructor; [done|].
  by inversion Hal.
Qed.

Lemma sort_insert_sorted x (l : list A) :
  Sorted (sort_le compareFn) l ->
  Sorted (sort_le compareFn) (sort_insert compareFn x l).
Proof.
  induction 1 as [|y l Hl IH Hy]; simpl.
  - repeat constructor.
  - destruct (Z.leb_spec (compareFn x y) 0) as [Hle|Hgt].
    + constructor; [by constructor|]. by constructor.
    + constructor; [exact IH|].
      apply sort_insert_HdRel; [|exact Hy].
      by apply compareFn_total.
Qed.

Lemma sort_sorted (l : list A) : Sorted (sort_le compareFn) (sort compareFn l).
Proof.
  induction l as [|x l IH]; simpl; [constructor|].
  by apply sort_insert_sorted.
Qed.

End SortFacts.

Lemma Sorted_adjacent {A} (R : A -> A -> Prop) (l : list A) i a b :
  Sorted R l -> l !! i = Some a -> l !! S i = Some b -> R a b.
Proof.
  intros Hs. revert i. induction Hs as [|x l Hl IH Hx]; intros i Ha Hb.
  - discriminate.
  - destruct i as [|i]; simpl in *.
    + injection Ha as <-. destruct l as [|y l]; [discriminate|].
      simpl in Hb. injection Hb as <-. by inversion Hx.
    + by apply (IH i).
Qed.

Lemma Sorted_weaken {A} (R1 R2 : A -> A -> Prop) (l : list A) :
  (forall x y, R1 x y -> R2 x y) -> Sorted R1 l -> Sorted R2 l.
Proof.
  intros Himp. induction 1 as [|x l Hl IH Hx]; constructor; [done|].
  destruct Hx; constructor. by apply Himp.
Qed.

Lemma localeCompare_total a b :
  0 < localeCompare a b -> localeCompare b a <= 0.
Proof.
  unfold localeCompare. rewrite (String.compare_antisym a b).
  destruct (String.compare b a); simpl; lia.
Qed.

Lemma localeCompare_le a b :
  localeCompare a b <= 0 <-> String.compare a b <> Gt.
Proof.
  unfold localeCompare. destruct (String.compare a b); split; intros H;
    try lia; try discriminate; try done.
Qed.

(** ** Sales reports *)

(** C5. For every list of sales and every report type, the rows of the
    report come in the lexicographic order of their labels: of any two
    consecutive rows, the label of the first is at most the label of the
    second. *)
Theorem aggregatedData_sorted_by_label
  (localTZA : Z -> Z) (now : Z) (reportType : ReportType)
  (salesData : list Sale.t) :
  Sorted label_le (aggregatedData localTZA now reportType salesData)
  /\ forall i a b,
       aggregatedData localTZA now reportType salesData !! i = Some a ->
       aggregatedData localTZA now reportType salesData !! S i = Some b ->
       String.compare (ReportRow.name a) (ReportRow.name b) <> Gt.
Proof.
  assert (Hs : Sorted label_le
                 (aggregatedData localTZA now reportType salesData)).
  { unfold aggregatedData.
    eapply Sorted_weaken; [|apply sort_sorted].
    - intros a b Hab. by apply localeCompare_le.
    - intros a b. apply localeCompare_total. }
  split; [exact Hs|].
  intros i a b Ha Hb. exact (Sorted_adjacent label_le _ i a b Hs Ha Hb).
Qed.

(** *** The accumulator object *)

Lemma get_define key k v data :
  Obj.get key (Obj.define k v data)
  = match Obj.get key data with
    | Some r => Some r
    | None => if String.eqb k key then Some v else None
    end.
Proof.
  unfold Obj.define. induction data as [|[k' v'] data IH]; simpl; [done|].
  by destruct (String.eqb k' key).
Qed.

Lemma get_add_sales key k amount data :
  Obj.get key (Obj.add_sales k amount data)
  = if String.eqb k key
    then match Obj.get key data with
         | Some r => Some (ReportRow.mk (ReportRow.name r) (ReportRow.sales r + amount))
         | None => None
         end
    else Obj.get key data.
Proof.
  induction data as [|[k' v'] data IH]; simpl.
  - by destruct (String.eqb k key).
  - destruct (String.eqb k' k) eqn:Hk'; simpl.
    + apply String.eqb_eq in Hk' as ->.
      by destruct (String.eqb k key).
    + destruct (String.eqb k' key) eqn:Hkey; [|exact IH].
      destruct (String.eqb k key) eqn:Hk; [|done].
      apply String.eqb_eq in Hkey as ->. apply String.eqb_eq in Hk as ->.
      by rewrite String.eqb_refl in Hk'.
Qed.

Lemma keys_add_sales k amount data :
  List.map fst (Obj.add_sales k amount data) = List.map fst data.
Proof.
  induction data as [|[k' v'] data IH]; simpl; [done|].
  destruct (String.eqb k' k); simpl; [done|]. by f_equal.
Qed.

Lemma get_None_keys key data :
  Obj.get key data = None <-> ~ In key (List.map fst data).
Proof.
  induction data as [|[k v] data IH]; simpl; [tauto|].
  destruct (String.eqb k key) eqn:Hk.
  - apply String.eqb_eq in Hk. split; [discriminate|]. tauto.
  - apply String.eqb_neq in Hk. tauto.
Qed.

Lemma get_In key v data :
  NoDup (List.map fst data) -> In (key, v) data -> Obj.get key data = Some v.
Proof.
  induction data as [|[k' v'] data IH]; simpl; [done|].
  intros Hnd [Heq|Hin].
  - injection Heq as -> ->. by rewrite String.eqb_refl.
  - apply NoDup_cons in Hnd as [Hk' Hnd].
    destruct (String.eqb k' key) eqn:Hk; [|by apply IH].
    apply String.eqb_eq in Hk as ->. exfalso. apply Hk'.
    apply list_elem_of_In. apply in_map_iff. by exists (key, v).
Qed.

Lemma find_snoc {A} (p : A -> bool) (l : list A) (x : A) :
  List.find p (l ++ [x])
  = match List.find p l with
    | Some y => Some y
    | None => if p x then Some x else None
    end.
Proof.
  induction l as [|y l IH]; simpl; [done|]. by destruct (p y).
Qed.

Lemma find_None_filter {A} (p : A -> bool) (l : list A) :
  List.find p l = None -> List.filter p l = [].
Proof.
  induction l as [|y l IH]; simpl; [done|]. by destruct (p y).
Qed.

Lemma classic_In (k : string) (data : Obj.t) :
  In k (List.map fst data) \/ ~ In k (List.map fst data).
Proof.
  destruct (in_dec string_dec k (List.map fst data)); [by left|by right].
Qed.

Section Grouping.
Variable localTZA : Z -> Z.
Variable now : Z.
Variable reportType : ReportType.

Local Abbreviation bucket' := (bucket localTZA now reportType).
Local Abbreviation bucketKey' := (bucketKey localTZA now reportType).
Local Abbreviation bucketLabel' := (bucketLabel localTZA now reportType).
Local Abbreviation accumulate' := (accumulate localTZA now reportType).
Local Abbreviation inBucket' := (inBucket localTZA now reportType).
Local Abbreviation bucketSales' := (bucketSales localTZA now reportType).
Local Abbreviation bucketRow' := (bucketRow localTZA now reportType).


Lemma bucketSales_snoc key salesData sale :
  bucketSales' key (salesData ++ [sale])
  = bucketSales' key salesData + (if inBucket' key sale then Sale.total sale else 0).
Proof.
  unfold bucketSales. rewrite List.filter_app. simpl.
  generalize (List.filter (inBucket' key) salesData) as l.
  intros l. induction l as [|x l IH]; simpl.
  - destruct (inBucket' key sale); simpl; lia.
  - rewrite IH. lia.
Qed.

Lemma bucketRow_snoc key salesData sale :
  bucketRow' key (salesData ++ [sale])
  = if inBucket' key sale
    then Some match bucketRow' key salesData with
              | Some r => ReportRow.mk (ReportRow.name r) (ReportRow.sales r + Sale.total sale)
              | None => ReportRow.mk (bucketLabel' sale) (0 + Sale.total sale)
              end
    else bucketRow' key salesData.
Proof.
  unfold bucketRow. rewrite find_snoc, bucketSales_snoc.
  destruct (List.find (inBucket' key) salesData) as [first|] eqn:Hfind.
  - destruct (inBucket' key sale); simpl; [done|]. do 2 f_equal. lia.
  - destruct (inBucket' key sale); [|done].
    unfold bucketSales. by rewrite (find_None_filter _ _ Hfind).
Qed.

Lemma accumulate_get key data sale :
  Obj.get key (accumulate' data sale)
  = if inBucket' key sale
    then Some match Obj.get key data with
              | Some r => ReportRow.mk (ReportRow.name r) (ReportRow.sales r + Sale.total sale)
              | None => ReportRow.mk (bucketLabel' sale) (0 + Sale.total sale)
              end
    else Obj.get key data.
Proof.
  unfold accumulate, inBucket, bucketKey,
    bucketLabel.
  destruct (bucket' sale) as [k label]. cbn [fst snd].
  rewrite get_add_sales.
  destruct (String.eqb k key) eqn:Hk.
  - apply String.eqb_eq in Hk as ->.
    destruct (Obj.get key data) as [r|] eqn:Hget.
    + by rewrite Hget.
    + by rewrite get_define, Hget, String.eqb_refl.
  - destruct (Obj.get k data) as [r|]; [done|].
    rewrite get_define, Hk. by destruct (Obj.get key data).
Qed.

Lemma accumulate_keys data sale :
  List.map fst (accumulate' data sale)
  = match Obj.get (bucketKey' sale) data with
    | Some _ => List.map fst data
    | None => List.map fst data ++ [bucketKey' sale]
    end.
Proof.
  unfold accumulate, bucketKey.
  destruct (bucket' sale) as [k label]. cbn [fst].
  rewrite keys_add_sales.
  destruct (Obj.get k data); [done|].
  unfold Obj.define. by rewrite List.map_app.
Qed.

Lemma accumulate_NoDup data sale :
  NoDup (List.map fst data) -> NoDup (List.map fst (accumulate' data sale)).
Proof.
  intros Hnd. rewrite accumulate_keys.
  destruct (Obj.get (bucketKey' sale) data) eqn:Hget; [done|].
  apply get_None_keys in Hget.
  apply NoDup_app. split; [done|]. split; [|apply NoDup_singleton].
  intros x Hx Hx'. apply list_elem_of_In in Hx' as [<-|[]].
  apply Hget. by apply list_elem_of_In.
Qed.

(** After the loop, [data] maps every key to the row of its bucket'. *)
Lemma fold_accumulate_get key salesData :
  Obj.get key (fold_left accumulate' salesData []) = bucketRow' key salesData.
Proof.
  induction salesData as [|sale salesData IH] using rev_ind; [done|].
  rewrite fold_left_app. simpl.
  by rewrite accumulate_get, bucketRow_snoc, IH.
Qed.

Lemma fold_accumulate_NoDup salesData :
  NoDup (List.map fst (fold_left accumulate' salesData [])).
Proof.
  induction salesData as [|sale salesData IH] using rev_ind; [constructor|].
  rewrite fold_left_app. simpl. by apply accumulate_NoDup.
Qed.

Lemma bucketRow_Some key salesData :
  is_Some (bucketRow' key salesData)
  <-> exists sale, In sale salesData /\ bucketKey' sale = key.
Proof.
  unfold bucketRow.
  destruct (List.find (inBucket' key) salesData) as [first|] eqn:Hfind.
  - split; [intros _|by eauto].
    apply find_some in Hfind as [Hin Hkey].
    exists first. split; [done|]. by apply String.eqb_eq.
  - split; [by intros [? ?]|]. intros (sale & Hin & Hkey).
    eapply find_none in Hfind; [|exact Hin].
    apply String.eqb_neq in Hfind. done.
Qed.

Lemma sum_add_sales k amount data :
  In k (List.map fst data) ->
  sumSales (List.map snd (Obj.add_sales k amount data))
  = sumSales (List.map snd data) + amount.
Proof.
  induction data as [|[k' v'] data IH]; simpl; [done|].
  intros Hin. destruct (String.eqb k' k) eqn:Hk; simpl.
  - lia.
  - apply String.eqb_neq in Hk. destruct Hin as [Heq|Hin]; [done|].
    rewrite (IH Hin). lia.
Qed.

Lemma sum_app rows1 rows2 :
  sumSales (rows1 ++ rows2) = sumSales rows1 + sumSales rows2.
Proof.
  induction rows1 as [|r rows1 IH]; simpl; [done|]. rewrite IH. lia.
Qed.

Lemma accumulate_sum data sale :
  sumSales (List.map snd (accumulate' data sale))
  = sumSales (List.map snd data) + Sale.total sale.
Proof.
  unfold accumulate. destruct (bucket' sale) as [k label].
  destruct (Obj.get k data) as [r|] eqn:Hget.
  - apply sum_add_sales.
    destruct (classic_In k data) as [Hin|Hnin]; [done|].
    apply get_None_keys in Hnin. congruence.
  - rewrite sum_add_sales.
    + unfold Obj.define. rewrite List.map_app, sum_app. simpl. lia.
    + unfold Obj.define. rewrite List.map_app. apply in_or_app.
      right. by left.
Qed.

Lemma fold_accumulate_sum salesData :
  sumSales (List.map snd (fold_left accumulate' salesData []))
  = sumTotals salesData.
Proof.
  induction salesData as [|sale salesData IH] using rev_ind; [done|].
  rewrite fold_left_app. simpl. rewrite accumulate_sum, IH.
  unfold sumTotals. rewrite fold_right_app. simpl.
  generalize (Sale.total sale). intros t. clear IH.
  induction salesData as [|x l IH]; simpl; [lia|]. rewrite <- IH. lia.
Qed.

End Grouping.

Lemma filter_partition_perm {A} (p : A -> bool) (l : list A) :
  Permutation (List.filter p l ++ List.filter (fun x => negb (p x)) l) l.
Proof.
  induction l as [|x l IH]; simpl; [done|].
  destruct (p x); simpl.
  - by constructor.
  - rewrite <- Permutation_middle. by constructor.
Qed.

Lemma values_perm (data : Obj.t) :
  Permutation (Obj.values data) (List.map snd data).
Proof.
  unfold Obj.values. apply Permutation_map.
  rewrite sort_perm. apply filter_partition_perm.
Qed.

Lemma sumSales_perm rows1 rows2 :
  Permutation rows1 rows2 -> sumSales rows1 = sumSales rows2.
Proof.
  induction 1 as [|x l l' _ IH|x y l|l l' l'' _ IH1 _ IH2]; simpl; lia.
Qed.

Lemma reduce_sumSales rows sum :
  fold_left (fun sum item => sum + ReportRow.sales item) rows sum
  = sum + sumSales rows.
Proof.
  revert sum. induction rows as [|r rows IH]; intros sum; simpl; [lia|].
  rewrite IH. lia.
Qed.

Lemma aggregatedData_perm localTZA now reportType salesData :
  Permutation
    (aggregatedData localTZA now reportType salesData)
    (List.map snd (fold_left (accumulate localTZA now reportType) salesData [])).
Proof.
  unfold aggregatedData. rewrite sort_perm. apply values_perm.
Qed.

Lemma Forall2_fst_snd {A B} (R : A -> B -> Prop) (l : list (A * B)) :
  (forall p, In p l -> R (fst p) (snd p)) ->
  Forall2 R (List.map fst l) (List.map snd l).
Proof.
  induction l as [|p l IH]; simpl; intros H; constructor; auto.
Qed.

(** One row for each bucket key, holding the sum of the bucket. *)
Lemma aggregatedData_rows localTZA now reportType salesData :
  exists keys rows,
    NoDup keys
    /\ (forall key,
           In key keys
           <-> exists sale, In sale salesData
                            /\ bucketKey localTZA now reportType sale = key)
    /\ Forall2 (fun key row =>
                  bucketRow localTZA now reportType key salesData = Some row)
               keys rows
    /\ Permutation (aggregatedData localTZA now reportType salesData) rows.
Proof.
  set (data := fold_left (accumulate localTZA now reportType) salesData []).
  exists (List.map fst data), (List.map snd data).
  pose proof (fold_accumulate_NoDup localTZA now reportType salesData) as Hnd.
  fold data in Hnd.
  split; [exact Hnd|]. split; [|split].
  - intros key. rewrite <- bucketRow_Some.
    rewrite <- (fold_accumulate_get localTZA now reportType key salesData).
    fold data. split.
    + intros Hin. destruct (Obj.get key data) eqn:Hget; [by eexists|].
      by apply get_None_keys in Hget.
    + intros [r Hget] . destruct (classic_In key data) as [Hin|Hnin]; [done|].
      apply get_None_keys in Hnin. congruence.
  - apply Forall2_fst_snd. intros [k v] Hin. cbn [fst snd].
    rewrite <- (fold_accumulate_get localTZA now reportType k salesData).
    fold data. by apply get_In.
  - apply aggregatedData_perm.
Qed.

Lemma totalSales_sum localTZA now reportType salesData :
  totalSales localTZA now reportType salesData
  = sumSales (aggregatedData localTZA now reportType salesData)
  /\ totalSales localTZA now reportType salesData = sumTotals salesData.
Proof.
  unfold totalSales. rewrite reduce_sumSales. split; [lia|].
  rewrite (sumSales_perm _ _ (aggregatedData_perm _ _ _ _)).
  rewrite fold_accumulate_sum. lia.
Qed.

(** *** The shape of the bucket keys *)

Lemma string_app_cons x (a b : string) :
  (String x a ++ b)%string = String x (a ++ b).
Proof. reflexivity. Qed.

Lemma string_app_nil_l (b : string) : ("" ++ b)%string = b.
Proof. reflexivity. Qed.

Lemma string_app_assoc (a b c : string) :
  ((a ++ b) ++ c = a ++ (b ++ c))%string.
Proof.
  induction a as [|x a IH]; [done|].
  by rewrite !string_app_cons, IH.
Qed.

Lemma string_app_nil_r (a : string) : (a ++ "")%string = a.
Proof.
  induction a as [|x a IH]; [done|]. by rewrite string_app_cons, IH.
Qed.

Lemma string_length_app (a b : string) :
  String.length (a ++ b) = (String.length a + String.length b)%nat.
Proof.
  induction a as [|x a IH]; [done|].
  rewrite string_app_cons. simpl. by rewrite IH.
Qed.

Lemma substring_prefix (a b : string) :
  String.substring 0 (String.length a) (a ++ b) = a.
Proof.
  induction a as [|x a IH].
  - rewrite string_app_nil_l. by destruct b.
  - rewrite string_app_cons. simpl. by rewrite IH.
Qed.

Lemma no_T_app a b : no_T a = true -> no_T b = true -> no_T (a ++ b) = true.
Proof.
  induction a as [|x a IH]; [done|].
  rewrite string_app_cons. simpl.
  intros [Hx Ha]%andb_true_iff Hb. rewrite Hx. simpl. by apply IH.
Qed.

Lemma split_T_0_app a b :
  no_T a = true -> Date.split_T_0 (a ++ b) = (a ++ Date.split_T_0 b)%string.
Proof.
  induction a as [|x a IH]; [done|].
  rewrite !string_app_cons. simpl.
  intros [Hx Ha]%andb_true_iff. apply negb_true_iff in Hx. rewrite Hx.
  by rewrite IH.
Qed.

Lemma no_T_digits n : no_T (digits n) = true.
Proof.
  unfold digits. generalize (N.to_uint (Z.to_N n)). intros u.
  assert (H : forall v, no_T (NilEmpty.string_of_uint v) = true)
    by (induction v; simpl; done).
  destruct u; first [done | apply H].
Qed.

Lemma no_T_zeros k : no_T (Date.zeros k) = true.
Proof.
  induction k as [|k IH]; [done|].
  cbn [Date.zeros]. by rewrite string_app_cons, string_app_nil_l.
Qed.

Lemma no_T_pad w n : no_T (Date.pad w n) = true.
Proof.
  unfold Date.pad. cbv zeta.
  apply no_T_app; [apply no_T_zeros|apply no_T_digits].
Qed.

Lemma no_T_isoYear y : no_T (Date.isoYear y) = true.
Proof.
  unfold Date.isoYear. destruct ((0 <=? y) && (y <=? 9999)).
  - apply no_T_pad.
  - apply no_T_app; [by destruct (y <? 0)|apply no_T_pad].
Qed.

(** The text of [toISOString] before its ['T'] is the date. *)
Lemma isoDate_format t :
  Date.split_T_0 (Date.toISOString t)
  = (Date.isoYear (Date.YearFromTime t) ++ "-"
       ++ Date.pad 2 (Date.MonthFromTime t) ++ "-"
       ++ Date.pad 2 (Date.DateFromTime t))%string.
Proof.
  unfold Date.toISOString. cbv zeta.
  rewrite split_T_0_app by apply no_T_isoYear. f_equal.
  rewrite (split_T_0_app "-") by done. f_equal.
  rewrite split_T_0_app by apply no_T_pad. f_equal.
  rewrite (split_T_0_app "-") by done. f_equal.
  rewrite split_T_0_app by apply no_T_pad.
  rewrite string_app_cons. simpl. by rewrite string_app_nil_r.
Qed.

Lemma all_from_spec p n z :
  all_from p n z = true -> forall x, z <= x < z + Z.of_nat n -> p x = true.
Proof.
  revert z. induction n as [|n IH]; intros z Hall x Hx; [lia|].
  simpl in Hall. apply andb_true_iff in Hall as [Hz Hall].
  destruct (Z.eq_dec x z) as [->|Hne]; [done|].
  apply (IH (z + 1) Hall). lia.
Qed.

Lemma length_zeros k : String.length (Date.zeros k) = k.
Proof.
  induction k as [|k IH]; [done|].
  cbn [Date.zeros]. rewrite string_app_cons, string_app_nil_l. simpl.
  by rewrite IH.
Qed.

Lemma length_pad w n :
  (String.length (digits n) <= w)%nat -> String.length (Date.pad w n) = w.
Proof.
  intros H. unfold Date.pad. cbv zeta.
  rewrite string_length_app, length_zeros. lia.
Qed.

Lemma digits_nonpos n : n <= 0 -> digits n = "0".
Proof. intros H. unfold digits. by destruct n; [| lia |]. Qed.

Lemma length_digits_2 n : n <= 99 -> (String.length (digits n) <= 2)%nat.
Proof.
  intros H. destruct (Z.le_gt_cases n 0) as [Hn|Hn].
  - rewrite (digits_nonpos n Hn). simpl. lia.
  - assert (Hall : all_from (fun x => (String.length (digits x) <=? 2)%nat)
                            100 0 = true) by (vm_compute; reflexivity).
    apply Nat.leb_le. apply (all_from_spec _ _ _ Hall). lia.
Qed.

Lemma length_digits_4 y :
  0 <= y <= 9999 -> (String.length (digits y) <= 4)%nat.
Proof.
  intros H.
  assert (Hall : all_from (fun x => (String.length (digits x) <=? 4)%nat)
                          (Z.to_nat 10000) 0 = true) by (vm_compute; reflexivity).
  apply Nat.leb_le. apply (all_from_spec _ _ _ Hall). lia.
Qed.

(** The month and the day of the month have at most two digits. *)
Lemma civil_two_digits day :
  snd (fst (Date.civil day)) <= 99 /\ snd (Date.civil day) <= 99.
Proof.
  unfold Date.civil. cbv zeta. cbn [fst snd].
  set (z := day + 719468).
  set (era := z / 146097).
  set (doe := z - era * 146097).
  assert (Hdoe : 0 <= doe < 146097).
  { unfold doe, era. pose proof (Z.div_mod z 146097 ltac:(lia)).
    pose proof (Z.mod_pos_bound z 146097 ltac:(lia)). lia. }
  clearbody doe. clear z era.
  set (yoe := (doe - doe / 1460 + doe / 36524 - doe / 146096) / 365).
  set (doy := doe - (365 * yoe + yoe / 4 - yoe / 100)).
  assert (Hdoy : doy <= 480).
  { unfold doy, yoe. Z.div_mod_to_equations. lia. }
  clearbody doy. clear yoe.
  set (mp := (5 * doy + 2) / 153).
  assert (Hmp : mp <= 20 /\ 153 * mp <= 5 * doy + 2 < 153 * mp + 153).
  { unfold mp. Z.div_mod_to_equations. lia. }
  clearbody mp.
  split.
  - destruct (mp <? 10); lia.
  - Z.div_mod_to_equations. lia.
Qed.

(** For a year of four digits the keys have the shapes [YYYY-MM-DD] and
    [YYYY-MM]. *)
Lemma bucketKey_format t y m d :
  Date.civil (Date.Day t) = (y, m, d) ->
  0 <= y <= 9999 ->
  Date.split_T_0 (Date.toISOString t)
  = (Date.pad 4 y ++ "-" ++ Date.pad 2 m ++ "-" ++ Date.pad 2 d)%string
  /\ String.length (Date.split_T_0 (Date.toISOString t)) = 10%nat
  /\ String.substring 0 7 (Date.toISOString t)
     = (Date.pad 4 y ++ "-" ++ Date.pad 2 m)%string
  /\ String.length (String.substring 0 7 (Date.toISOString t)) = 7%nat.
Proof.
  intros Hcivil Hy.
  pose proof (civil_two_digits (Date.Day t)) as [Hm Hd].
  rewrite Hcivil in Hm, Hd. cbn [fst snd] in Hm, Hd.
  assert (Hyear : Date.isoYear y = Date.pad 4 y).
  { unfold Date.isoYear.
    destruct (Z.leb_spec 0 y); [|lia]. by destruct (Z.leb_spec y 9999); [|lia]. }
  assert (Hl4 : String.length (Date.pad 4 y) = 4%nat)
    by (apply length_pad; by apply length_digits_4).
  assert (Hl2m : String.length (Date.pad 2 m) = 2%nat)
    by (apply length_pad; by apply length_digits_2).
  assert (Hl2d : String.length (Date.pad 2 d) = 2%nat)
    by (apply length_pad; by apply length_digits_2).
  assert (Hiso : Date.split_T_0 (Date.toISOString t)
                 = (Date.pad 4 y ++ "-" ++ Date.pad 2 m ++ "-"
                      ++ Date.pad 2 d)%string).
  { rewrite isoDate_format.
    unfold Date.YearFromTime, Date.MonthFromTime, Date.DateFromTime.
    rewrite Hcivil. cbn [fst snd]. by rewrite Hyear. }
  assert (Hmonth : String.substring 0 7 (Date.toISOString t)
                   = (Date.pad 4 y ++ "-" ++ Date.pad 2 m)%string).
  { unfold Date.toISOString. cbv zeta.
    unfold Date.YearFromTime, Date.MonthFromTime, Date.DateFromTime.
    rewrite Hcivil. cbn [fst snd]. rewrite Hyear.
    rewrite <- (string_app_assoc (Date.pad 2 m)).
    rewrite <- (string_app_assoc "-" (Date.pad 2 m ++ "-")).
    rewrite <- (string_app_assoc "-" (Date.pad 2 m) "-").
    rewrite <- (string_app_assoc (Date.pad 4 y)).
    rewrite <- (string_app_assoc (Date.pad 4 y) ("-" ++ Date.pad 2 m) "-").
    rewrite (string_app_assoc (Date.pad 4 y ++ "-" ++ Date.pad 2 m) "-").
    replace 7%nat with (String.length (Date.pad 4 y ++ "-" ++ Date.pad 2 m)).
    - apply substring_prefix.
    - rewrite !string_length_app, Hl4, Hl2m. reflexivity. }
  split; [exact Hiso|]. split; [|split; [exact Hmonth|]].
  - rewrite Hiso, !string_length_app, Hl4, Hl2m, Hl2d. reflexivity.
  - rewrite Hmonth, !string_length_app, Hl4, Hl2m. reflexivity.
Qed.

(** *** The report example *)

(** At noon UTC of day [d], the local day is [d] or the day after. *)
Lemma local_day_at_noon localTZA d :
  zoneOffset localTZA ->
  let t := d * Date.msPerDay + 43200000 in
  Date.Day (t + localTZA t) = d \/ Date.Day (t + localTZA t) = d + 1.
Proof.
  intros Hzone t. specialize (Hzone t).
  unfold Date.Day. subst t. unfold Date.msPerDay in *.
  set (x := d * 86400000 + 43200000 + localTZA (d * 86400000 + 43200000)) in *.
  pose proof (Z.div_mod x 86400000 ltac:(lia)) as Hdm.
  pose proof (Z.mod_pos_bound x 86400000 ltac:(lia)) as Hmod.
  assert (Hx : d * 86400000 <= x < (d + 2) * 86400000) by lia.
  lia.
Qed.

Lemma formatMonthYear_at_noon localTZA d (label : string) :
  zoneOffset localTZA ->
  (Date.monthShort (snd (fst (Date.civil d))) ++ " "
     ++ numberToString (fst (fst (Date.civil d))))%string = label ->
  (Date.monthShort (snd (fst (Date.civil (d + 1)))) ++ " "
     ++ numberToString (fst (fst (Date.civil (d + 1)))))%string = label ->
  Date.formatMonthYear localTZA (d * Date.msPerDay + 43200000) = label.
Proof.
  intros Hzone H0 H1. unfold Date.formatMonthYear, Date.MonthFromTime,
    Date.YearFromTime.
  by destruct (local_day_at_noon localTZA d Hzone) as [-> | ->].
Qed.

Lemma exampleSales_monthly localTZA now :
  zoneOffset localTZA ->
  List.map (bucket localTZA now Monthly) exampleSales
  = [("2024-01", "Jan 2024"); ("2024-01", "Jan 2024"); ("2024-02", "Feb 2024")].
Proof.
  intros Hzone. unfold exampleSales, bucket, saleDate. cbn [List.map Sale.timestamp].
  change (1704456000 * 1000) with (19727 * Date.msPerDay + 43200000).
  change (1704628800 * 1000) with (19729 * Date.msPerDay + 43200000).
  change (1706788800 * 1000) with (19754 * Date.msPerDay + 43200000).
  rewrite (formatMonthYear_at_noon localTZA 19727 "Jan 2024" Hzone eq_refl eq_refl).
  rewrite (formatMonthYear_at_noon localTZA 19729 "Jan 2024" Hzone eq_refl eq_refl).
  rewrite (formatMonthYear_at_noon localTZA 19754 "Feb 2024" Hzone eq_refl eq_refl).
  vm_compute. reflexivity.
Qed.

Lemma aggregatedData_bucketed localTZA now reportType salesData :
  aggregatedData localTZA now reportType salesData
  = sort (fun a b => localeCompare (ReportRow.name a) (ReportRow.name b))
      (Obj.values
         (fold_left
            (fun data p =>
               Obj.add_sales (fst (fst p)) (snd p)
                 match Obj.get (fst (fst p)) data with
                 | None => Obj.define (fst (fst p)) (ReportRow.mk (snd (fst p)) 0) data
                 | Some _ => data
                 end)
            (combine (List.map (bucket localTZA now reportType) salesData)
                     (List.map Sale.total salesData)) [])).
Proof.
  unfold aggregatedData. do 2 f_equal.
  generalize (@nil (string * ReportRow.t)) as data.
  induction salesData as [|sale salesData IH]; intros data; simpl; [done|].
  rewrite <- IH. f_equal. unfold accumulate.
  by destruct (bucket localTZA now reportType sale).
Qed.

Lemma exampleSales_report localTZA now :
  zoneOffset localTZA ->
  aggregatedData localTZA now Daily exampleSales
  = [ReportRow.mk "2024-01-05" 50; ReportRow.mk "2024-01-07" 30; ReportRow.mk "2024-02-01" 20]
  /\ totalSales localTZA now Daily exampleSales = 100
  /\ aggregatedData localTZA now Monthly exampleSales
     = [ReportRow.mk "Feb 2024" 20; ReportRow.mk "Jan 2024" 80]
  /\ totalSales localTZA now Monthly exampleSales = 100.
Proof.
  intros Hzone.
  assert (Hd : aggregatedData localTZA now Daily exampleSales
               = [ReportRow.mk "2024-01-05" 50; ReportRow.mk "2024-01-07" 30;
                  ReportRow.mk "2024-02-01" 20])
    by (vm_compute; reflexivity).
  assert (Hm : aggregatedData localTZA now Monthly exampleSales
               = [ReportRow.mk "Feb 2024" 20; ReportRow.mk "Jan 2024" 80]).
  { rewrite aggregatedData_bucketed, (exampleSales_monthly _ _ Hzone).
    vm_compute. reflexivity. }
  unfold totalSales. rewrite Hd, Hm. repeat split; reflexivity.
Qed.




(** The [date] field of a sale plays no part: without a timestamp the three
    sales all fall in the bucket of the current day (here 2024-03-10). *)
Example unstamped_sales_fall_on_today :
  aggregatedData utc 1710064800000 Daily unstampedSales
  = [ReportRow.mk "2024-03-10" 100].
Proof. vm_compute. reflexivity. Qed.

Lemma aggregatedData_sorted_by_label_witness :
  aggregatedData utc 0 Monthly exampleSales !! 0%nat
  = Some (ReportRow.mk "Feb 2024" 20)
  /\ aggregatedData utc 0 Monthly exampleSales !! 1%nat
     = Some (ReportRow.mk "Jan 2024" 80)
  /\ String.compare "Feb 2024" "Jan 2024" <> Gt.
Proof.
  assert (H0 : aggregatedData utc 0 Monthly exampleSales !! 0%nat
               = Some (ReportRow.mk "Feb 2024" 20)) by (vm_compute; reflexivity).
  assert (H1 : aggregatedData utc 0 Monthly exampleSales !! 1%nat
               = Some (ReportRow.mk "Jan 2024" 80)) by (vm_compute; reflexivity).
  split; [exact H0|]. split; [exact H1|].
  exact (proj2 (aggregatedData_sorted_by_label utc 0 Monthly exampleSales)
               0%nat _ _ H0 H1).
Defined.

(** * Further properties of the code *)

(** ** The cart *)

Lemma sum_price_quantity_app o1 o2 :
  sum_price_quantity (o1 ++ o2) = sum_price_quantity o1 + sum_price_quantity o2.
Proof. induction o1 as [|l o1 IH]; simpl; [done|]. rewrite IH. lia. Qed.

(** The result of an update on a cart that holds the item once. *)
Lemma updateItemQuantity_present item delta pre l post :
  absent item pre -> absent item post -> Line.id l = Item.id item ->
  updateItemQuantity item delta (pre ++ l :: post)
  = if Line.quantity l + delta <=? 0
    then pre ++ post
    else pre ++ Line.with_quantity l (Line.quantity l + delta) :: post.
Proof.
  intros Hpre Hpost Hid. unfold updateItemQuantity.
  rewrite (find_split item pre l post Hpre Hid). cbv zeta.
  pose proof (proj2 (same_id_true item l) Hid) as Hl.
  destruct (Line.quantity l + delta <=? 0).
  - rewrite List.filter_app. simpl. rewrite Hl. simpl.
    by rewrite !filter_absent.
  - rewrite map_app. simpl. rewrite Hl. by rewrite !map_absent.
Qed.

Lemma updateItemQuantity_absent item delta order :
  absent item order ->
  updateItemQuantity item delta order
  = if delta >? 0 then order ++ [Line.of_item item 1] else order.
Proof.
  intros Habs. unfold updateItemQuantity. by rewrite (find_absent item order Habs).
Qed.

Lemma absent_dec item order :
  absent item order
  \/ exists pre l post, order = pre ++ l :: post /\ Line.id l = Item.id item
                        /\ absent item pre.
Proof.
  induction order as [|i o IH]; [left; constructor|].
  destruct (same_id item i) eqn:Hi.
  - right. exists [], i, o. split; [done|]. split; [by apply same_id_true|].
    constructor.
  - destruct IH as [Habs|(pre & l & post & -> & Hid & Hpre)].
    + left. by constructor.
    + right. exists (i :: pre), l, post. split; [done|]. split; [done|].
      by constructor.
Qed.

Lemma updateItemQuantity_NoDup item delta order :
  NoDup (ids order) -> NoDup (ids (updateItemQuantity item delta order)).
Proof.
  intros Hnd. destruct (absent_dec item order)
    as [Habs|(pre & l & post & -> & Hid & _)].
  - rewrite (updateItemQuantity_absent _ _ _ Habs).
    destruct (delta >? 0); [|done].
    unfold ids. rewrite map_app. simpl.
    apply NoDup_app. split; [exact Hnd|]. split; [|apply NoDup_singleton].
    intros x Hx Hx'. apply list_elem_of_In in Hx' as [<-|[]].
    apply absent_spec in Habs. apply Habs. by apply list_elem_of_In.
  - destruct (split_absent item pre l post Hnd Hid) as [Hpre Hpost].
    rewrite (updateItemQuantity_present _ _ _ _ _ Hpre Hpost Hid).
    unfold ids in *. rewrite map_app in Hnd. simpl in Hnd.
    apply NoDup_app in Hnd as (Hn1 & Hn2 & Hn3).
    apply NoDup_cons in Hn3 as [Hn3 Hn4].
    destruct (Line.quantity l + delta <=? 0); rewrite map_app.
    + apply NoDup_app. split; [done|]. split; [|done].
      intros x Hx Hx'. apply (Hn2 x Hx). by right.
    + simpl. apply NoDup_app. split; [done|]. split; [done|].
      by apply NoDup_cons.
Qed.

Lemma updateItemQuantity_positive item delta order :
  Forall (fun l => 0 < Line.quantity l) order ->
  Forall (fun l => 0 < Line.quantity l) (updateItemQuantity item delta order).
Proof.
  intros Hpos. unfold updateItemQuantity.
  destruct (List.find (same_id item) order) as [existingItem|].
  - cbv zeta.
    destruct (Z.leb_spec (Line.quantity existingItem + delta) 0) as [_|Hgt].
    + apply Forall_forall. intros l Hl. apply list_elem_of_In in Hl.
      apply filter_In in Hl as [Hl _].
      rewrite Forall_forall in Hpos. apply Hpos. by apply list_elem_of_In.
    + induction Hpos as [|i o Hi _ IH]; simpl; constructor; [|exact IH].
      by destruct (same_id item i).
  - destruct (delta >? 0); [|done].
    apply Forall_app. split; [done|]. repeat constructor.
Qed.

(** X1. Whatever run of quantity updates is applied to it, a cart keeps its line
    ids distinct and its quantities at least one: no line of quantity zero or
    less is ever kept. *)
Theorem applyUpdates_cartOk (updates : list (Item.t * Z)) (order : Order) :
  cartOk order -> cartOk (applyUpdates updates order).
Proof.
  unfold applyUpdates. revert order.
  induction updates as [|[item delta] updates IH]; intros order Hok; [done|].
  simpl. apply IH. destruct Hok as [Hnd Hpos]. split.
  - by apply updateItemQuantity_NoDup.
  - by apply updateItemQuantity_positive.
Qed.

Lemma applyUpdates_cartOk_witness :
  cartOk []
  /\ cartOk (applyUpdates [(Item.mk "Tea" 20 "b7", 1);
                           (Item.mk "Fried Rice" 100 "ns5", 1);
                           (Item.mk "Tea" 20 "b7", -1)] []).
Proof.
  assert (H : cartOk []) by (split; constructor).
  split; [exact H|]. exact (applyUpdates_cartOk _ [] H).
Defined.

(** X2. The total of a cart follows an update: on a cart with distinct ids, a
    line of the item changes the total by its own price times the change of
    its quantity (minus its whole amount when it is removed), and a new line
    adds the price of the menu entry once. *)
Theorem tableTotal_updateItemQuantity
  (item : Item.t) (delta : Z) (order : Order) :
  NoDup (ids order) ->
  (forall l,
      In l order -> Line.id l = Item.id item ->
      tableTotal (updateItemQuantity item delta order)
      = tableTotal order
        + Line.price l * (if Line.quantity l + delta <=? 0
                          then - Line.quantity l else delta))
  /\ (~ In (Item.id item) (ids order) ->
      tableTotal (updateItemQuantity item delta order)
      = tableTotal order + (if delta >? 0 then Item.price item else 0)).
Proof.
  intros Hnd. split.
  - intros l Hin Hid. apply in_split in Hin as (pre & post & ->).
    destruct (split_absent item pre l post Hnd Hid) as [Hpre Hpost].
    rewrite (updateItemQuantity_present _ _ _ _ _ Hpre Hpost Hid).
    rewrite !tableTotal_sum.
    destruct (Line.quantity l + delta <=? 0);
      rewrite !sum_price_quantity_app; simpl; lia.
  - intros Hnone. apply absent_spec in Hnone.
    rewrite (updateItemQuantity_absent _ _ _ Hnone), !tableTotal_sum.
    destruct (delta >? 0); [|lia].
    rewrite sum_price_quantity_app. simpl. lia.
Qed.

Lemma tableTotal_updateItemQuantity_witness :
  tableTotal (updateItemQuantity (Item.mk "Tea" 20 "b7") 3
                [Line.mk "Fried Rice" 100 "ns5" 1; Line.mk "Tea" 20 "b7" 2])
  = tableTotal [Line.mk "Fried Rice" 100 "ns5" 1; Line.mk "Tea" 20 "b7" 2]
    + 20 * 3.
Proof.
  assert (Hnd : NoDup (ids [Line.mk "Fried Rice" 100 "ns5" 1;
                            Line.mk "Tea" 20 "b7" 2])).
  { refine (bool_decide_unpack _ _). vm_compute. exact I. }
  refine (proj1 (tableTotal_updateItemQuantity (Item.mk "Tea" 20 "b7") 3 _ Hnd)
                (Line.mk "Tea" 20 "b7" 2) _ eq_refl).
  right. by left.
Defined.

(** X3. Adding to an item and taking the same amount away again gives the cart
    back, line for line and in the same order. *)
Theorem updateItemQuantity_undo (item : Item.t) (delta : Z) (order : Order) :
  cartOk order -> 0 < delta ->
  updateItemQuantity item (- delta) (updateItemQuantity item delta order)
  = order.
Proof.
  intros [Hnd Hpos] Hdelta.
  destruct (absent_dec item order) as [Habs|(pre & l & post & -> & Hid & _)].
  - rewrite (updateItemQuantity_absent _ _ _ Habs).
    destruct (Z.gtb_spec delta 0) as [_|Hle]; [|lia].
    rewrite (updateItemQuantity_present item (- delta) order
               (Line.of_item item 1) [] Habs ltac:(constructor) eq_refl).
    cbn [Line.of_item Line.quantity].
    destruct (Z.leb_spec (1 + - delta) 0) as [_|Hgt]; [|lia].
    apply app_nil_r.
  - destruct (split_absent item pre l post Hnd Hid) as [Hpre Hpost].
    apply Forall_app in Hpos as [_ Hpos].
    apply Forall_cons in Hpos as [Hl _].
    rewrite (updateItemQuantity_present _ _ _ _ _ Hpre Hpost Hid).
    destruct (Z.leb_spec (Line.quantity l + delta) 0) as [Hle|_]; [lia|].
    rewrite (updateItemQuantity_present item (- delta) pre
               (Line.with_quantity l (Line.quantity l + delta)) post
               Hpre Hpost Hid).
    cbn [Line.with_quantity Line.quantity].
    destruct (Z.leb_spec (Line.quantity l + delta + - delta) 0) as [Hle|_];
      [lia|].
    do 2 f_equal. destruct l as [n p i q]. cbn. f_equal. lia.
Qed.

Lemma updateItemQuantity_undo_witness :
  cartOk [Line.mk "Fried Rice" 100 "ns5" 1; Line.mk "Tea" 20 "b7" 2]
  /\ updateItemQuantity (Item.mk "Tea" 20 "b7") (- 1)
       (updateItemQuantity (Item.mk "Tea" 20 "b7") 1
          [Line.mk "Fried Rice" 100 "ns5" 1; Line.mk "Tea" 20 "b7" 2])
     = [Line.mk "Fried Rice" 100 "ns5" 1; Line.mk "Tea" 20 "b7" 2].
Proof.
  assert (H : cartOk [Line.mk "Fried Rice" 100 "ns5" 1;
                      Line.mk "Tea" 20 "b7" 2]).
  { split.
    - refine (bool_decide_unpack _ _). vm_compute. exact I.
    - repeat constructor. }
  split; [exact H|].
  apply (updateItemQuantity_undo (Item.mk "Tea" 20 "b7") 1 _ H). lia.
Defined.

(** ** Table references *)

Lemma digits_inj a b : 0 <= a -> 0 <= b -> digits a = digits b -> a = b.
Proof.
  intros Ha Hb H. unfold digits in H.
  assert (Hnn : forall n, N.to_uint n <> Decimal.Nil).
  { intros [|p]; [discriminate|]. apply DecimalPos.Unsigned.to_uint_nonnil. }
  assert (Hu : N.to_uint (Z.to_N a) = N.to_uint (Z.to_N b)).
  { pose proof (NilZero.usu _ (Hnn (Z.to_N a))) as H1.
    pose proof (NilZero.usu _ (Hnn (Z.to_N b))) as H2.
    rewrite H in H1. congruence. }
  apply DecimalN.Unsigned.to_uint_inj in Hu. lia.
Qed.

Lemma digits_no_dash n rest : digits n <> String "-"%char rest.
Proof.
  unfold digits. destruct (N.to_uint (Z.to_N n)); discriminate.
Qed.

(** Distinct numbers have distinct decimal forms: distinct tables have
    distinct documents. *)
Lemma tableRef_inj a b : tableRef a = tableRef b -> a = b.
Proof.
  unfold tableRef, numberToString.
  destruct (Z.ltb_spec a 0) as [Ha|Ha], (Z.ltb_spec b 0) as [Hb|Hb]; intros H.
  - rewrite !string_app_cons, !string_app_nil_l in H. injection H as H.
    apply digits_inj in H; lia.
  - rewrite string_app_cons, string_app_nil_l in H. symmetry in H.
    by apply digits_no_dash in H.
  - rewrite string_app_cons, string_app_nil_l in H.
    by apply digits_no_dash in H.
  - by apply digits_inj.
Qed.

(** ** Handlers and what they keep *)

Lemma preserves_ret {A} P (a : A) : preserves P (ret a).
Proof. by intros w Hw. Qed.

Lemma preserves_bind {A B} P (m : M A) (k : A -> M B) :
  preserves P m -> (forall a, preserves P (k a)) -> preserves P (bind m k).
Proof.
  intros Hm Hk w Hw. unfold bind. specialize (Hm w Hw).
  destruct (m w) as [[a|e] w1]; [|done]. by apply Hk.
Qed.

Lemma preserves_try_catch {A} P (body : M A) handler :
  preserves P body -> (forall e, preserves P (handler e)) ->
  preserves P (try_catch body handler).
Proof.
  intros Hb Hh w Hw. unfold try_catch. specialize (Hb w Hw).
  destruct (body w) as [[a|e] w1]; [done|]. by apply Hh.
Qed.

Lemma preserves_for_each {A} P (xs : list A) (body : A -> M unit) :
  (forall x, In x xs -> preserves P (body x)) -> preserves P (for_each xs body).
Proof.
  induction xs as [|x xs IH]; intros Hbody; [apply preserves_ret|].
  cbn [for_each]. apply preserves_bind.
  - apply Hbody. by left.
  - intros _. apply IH. intros y Hy. apply Hbody. by right.
Qed.


Lemma delivered_store w :
  tables (snd (delivered w)) = tables w
  /\ sales (snd (delivered w)) = sales w
  /\ serverTime (snd (delivered w)) = serverTime w
  /\ requests (snd (delivered w)) = requests w
  /\ console (snd (delivered w)) = console w.
Proof. unfold delivered. by destruct (net w). Qed.

(** The three writes, by what they may do to the store. *)
Lemma addDoc_cases tableId items total date w :
  let w' := snd (addDoc tableId items total date w) in
  tables w' = tables w
  /\ (sales w' = sales w
      \/ sales w' = sales w ++ [Sale.mk tableId items total
                                        (Some (serverTime w)) date]).
Proof.
  unfold addDoc. pose proof (delivered_store w) as (Ht & Hs & Hst & _).
  destruct (delivered w) as [[] w1]; cbn in *; rewrite ?Ht, ?Hs, ?Hst; auto.
Qed.

Lemma setDoc_merge_cases ref data w :
  let w' := snd (setDoc_merge ref data w) in
  sales w' = sales w
  /\ (tables w' = tables w
      \/ tables w'
         = <[ref := (resolve (serverTime w) <$> data)
                    ∪ default ∅ (tables w !! ref)]> (tables w)).
Proof.
  unfold setDoc_merge. pose proof (delivered_store w) as (Ht & Hs & Hst & _).
  destruct (delivered w) as [[] w1]; cbn in *; rewrite ?Ht, ?Hs, ?Hst; auto.
Qed.

Lemma updateDoc_cases ref data w :
  let w' := snd (updateDoc ref data w) in
  sales w' = sales w
  /\ (tables w' = tables w
      \/ exists old,
           tables w !! ref = Some old
           /\ tables w'
              = <[ref := (resolve (serverTime w) <$> data) ∪ old]> (tables w)).
Proof.
  unfold updateDoc. pose proof (delivered_store w) as (Ht & Hs & Hst & _).
  destruct (delivered w) as [[] w1]; cbn in *; [|by auto].
  rewrite Ht. destruct (tables w !! ref) as [old|] eqn:Hold; cbn;
    rewrite ?Ht, ?Hs, ?Hst; [|by auto].
  split; [done|]. right. by exists old.
Qed.

Lemma preserves_console_log P line : onStore P -> preserves P (console_log line).
Proof. intros HP w Hw. by apply (HP w). Qed.

Lemma preserves_console_error P line :
  onStore P -> preserves P (console_error line).
Proof. intros HP w Hw. by apply (HP w). Qed.

Lemma preserves_new_Date P : preserves P new_Date.
Proof. by intros w Hw. Qed.

Lemma storeOk_onStore : onStore storeOk.
Proof. intros w w' Ht _ Hw ref d. rewrite Ht. apply Hw. Qed.

Lemma resolve_fixed now v :
  v <> VServerTimestamp -> resolve now v = v.
Proof. by destruct v. Qed.

Lemma merge_tableOk ref (data old : gmap string Value) now :
  fieldsOk data -> tableOk ref old ->
  tableOk ref ((resolve now <$> data) ∪ old).
Proof.
  intros (order & Hid & Ho & Ht & Hs) (i & _ & Href & Hi & Hold & _).
  exists i, order. split; [done|]. split; [done|].
  split; [by rewrite lookup_merge_None|].
  split; [exact (lookup_merge_Some data old now _ _ Ho)|].
  split; [exact (lookup_merge_Some data old now _ _ Ht)|].
  exact (lookup_merge_Some data old now _ _ Hs).
Qed.

Lemma updateDoc_storeOk ref data :
  fieldsOk data -> preserves storeOk (updateDoc ref data).
Proof.
  intros Hdata w Hw.
  destruct (updateDoc_cases ref data w) as (_ & [Ht|(old & Hold & Ht)]).
  - intros r d. rewrite Ht. apply Hw.
  - intros r d. rewrite Ht. destruct (decide (ref = r)) as [<-|Hne].
    + rewrite lookup_insert_eq. intros [= <-].
      apply merge_tableOk; [done|]. by apply Hw.
    + rewrite lookup_insert_ne by done. apply Hw.
Qed.

Lemma addDoc_storeOk tableId items total date :
  preserves storeOk (addDoc tableId items total date).
Proof.
  intros w Hw r d. destruct (addDoc_cases tableId items total date w) as [Ht _].
  rewrite Ht. apply Hw.
Qed.

Lemma initialTable_tableOk i (old : gmap string Value) now :
  1 <= i <= 10 ->
  tableOk (tableRef i) ((resolve now <$> OrdersView.initialTable i) ∪ old).
Proof.
  intros Hi. exists i, []. split; [done|]. split; [done|].
  split; [|split; [|split]].
  - exact (lookup_merge_Some (OrdersView.initialTable i) old now
             "tableId" (VNum i) eq_refl).
  - exact (lookup_merge_Some (OrdersView.initialTable i) old now
             "order" (VItems []) eq_refl).
  - exact (lookup_merge_Some (OrdersView.initialTable i) old now
             "total" (VNum 0) eq_refl).
  - exact (lookup_merge_Some (OrdersView.initialTable i) old now
             "status" (VStr "Closed") eq_refl).
Qed.

Lemma setDoc_merge_storeOk i :
  1 <= i <= 10 ->
  preserves storeOk (setDoc_merge (tableRef i) (OrdersView.initialTable i)).
Proof.
  intros Hi w Hw.
  destruct (setDoc_merge_cases (tableRef i) (OrdersView.initialTable i) w)
    as (_ & [Ht|Ht]); intros r d; rewrite Ht; [apply Hw|].
  destruct (decide (tableRef i = r)) as [<-|Hne].
  - rewrite lookup_insert_eq. intros [= <-]. by apply initialTable_tableOk.
  - rewrite lookup_insert_ne by done. apply Hw.
Qed.

Lemma resetFields_ok : fieldsOk resetFields.
Proof. by exists []. Qed.

Lemma saveFields_ok order : fieldsOk (saveFields order (tableTotal order)).
Proof.
  exists order. rewrite tableTotal_sum. split; [done|]. split; [done|].
  split; [done|]. by destruct order.
Qed.

Lemma initEffect_storeOk isAuthReady db localTables :
  preserves storeOk (OrdersView.initEffect isAuthReady db localTables).
Proof.
  unfold OrdersView.initEffect. destruct db; [|apply preserves_ret].
  destruct (isAuthReady && _); [|apply preserves_ret].
  apply preserves_bind;
    [apply preserves_console_log, storeOk_onStore|intros _].
  apply preserves_try_catch;
    [|intros _; apply preserves_console_error, storeOk_onStore].
  apply preserves_bind;
    [|intros _; apply preserves_console_log, storeOk_onStore].
  apply preserves_for_each. intros i Hin. apply setDoc_merge_storeOk.
  simpl in Hin. lia.
Qed.

Lemma saveOrder_storeOk db tableId order :
  preserves storeOk (App.saveOrder db tableId order (tableTotal order)).
Proof.
  unfold App.saveOrder. destruct db; [|apply preserves_ret].
  apply preserves_try_catch;
    [|intros _; apply preserves_console_error, storeOk_onStore].
  apply (updateDoc_storeOk _ (saveFields order (tableTotal order))).
  apply saveFields_ok.
Qed.

Lemma handleCheckout_storeOk db tableId order total :
  preserves storeOk (App.handleCheckout db tableId order total).
Proof.
  unfold App.handleCheckout. destruct db; [|apply preserves_ret].
  apply preserves_try_catch;
    [|intros _; apply preserves_console_error, storeOk_onStore].
  apply preserves_bind; [apply preserves_new_Date|intros now].
  apply preserves_bind; [apply addDoc_storeOk|intros _].
  apply (updateDoc_storeOk _ resetFields), resetFields_ok.
Qed.

Lemma perform_storeOk db a w : storeOk w -> storeOk (perform db a w).
Proof.
  intros Hw. destruct a as [r t|tableId cart|tableId cart]; unfold perform, exec.
  - by apply initEffect_storeOk.
  - unfold OrderModal.handleSave.
    apply (preserves_bind storeOk); [|intros _; apply preserves_ret|done].
    apply saveOrder_storeOk.
  - unfold OrderModal.handleCheckout.
    destruct (_ =? _)%nat; [by apply preserves_ret|].
    apply (preserves_bind storeOk); [|intros _; apply preserves_ret|done].
    apply handleCheckout_storeOk.
Qed.

(** X5. Every table document stays well formed: whatever users do (initialise,
    save, check out, in any order, on any table number, with any cart) and
    whichever requests the network drops, each document of the store keeps
    its table number, and its status is [Open] exactly when its order has a
    line, its total being the sum of price times quantity over that order
    (so 0 when it is [Closed]). *)
Theorem run_storeOk
  (db : option Firestore) (steps : list (Env * Action)) (w : World) :
  storeOk w -> storeOk (run db steps w).
Proof.
  unfold run. revert w.
  induction steps as [|[e a] steps IH]; intros w Hw; [done|].
  simpl. apply IH. apply perform_storeOk.
  by apply (storeOk_onStore w).
Qed.

Lemma run_storeOk_witness :
  storeOk emptyWorld
  /\ storeOk (run (Some firestore)
                [(mkEnv 1704448800 1704448800000 [], DoInit true []);
                 (mkEnv 1704448900 1704448900000 [], DoSave 3 twoTeas);
                 (mkEnv 1704449000 1704449000000 [true; false],
                  DoCheckout 3 twoTeas)]
                emptyWorld).
Proof.
  assert (H : storeOk emptyWorld).
  { intros ref d Hd. cbn in Hd. by rewrite lookup_empty in Hd. }
  split; [exact H|]. exact (run_storeOk _ _ _ H).
Defined.

(** *** Sales are only ever appended *)

Lemma sales_onStore s0 : onStore (fun w => sales w = s0).
Proof. intros w w' _ Hs Hw. by rewrite Hs. Qed.

Lemma setDoc_merge_sales ref data s0 :
  preserves (fun w => sales w = s0) (setDoc_merge ref data).
Proof.
  intros w Hw. destruct (setDoc_merge_cases ref data w) as [Hs _]. by rewrite Hs.
Qed.

Lemma updateDoc_sales ref data s0 :
  preserves (fun w => sales w = s0) (updateDoc ref data).
Proof.
  intros w Hw. destruct (updateDoc_cases ref data w) as [Hs _]. by rewrite Hs.
Qed.

Lemma initEffect_sales isAuthReady db localTables w :
  sales (exec (OrdersView.initEffect isAuthReady db localTables) w) = sales w.
Proof.
  assert (H : preserves (fun w' => sales w' = sales w)
                (OrdersView.initEffect isAuthReady db localTables));
    [|by apply H].
  unfold OrdersView.initEffect. destruct db; [|apply preserves_ret].
  destruct (isAuthReady && _); [|apply preserves_ret].
  apply preserves_bind;
    [apply preserves_console_log, sales_onStore|intros _].
  apply preserves_try_catch;
    [|intros _; apply preserves_console_error, sales_onStore].
  apply preserves_bind;
    [|intros _; apply preserves_console_log, sales_onStore].
  apply preserves_for_each. intros i _. apply setDoc_merge_sales.
Qed.

Lemma saveOrder_sales db tableId order total w :
  sales (exec (App.saveOrder db tableId order total) w) = sales w.
Proof.
  assert (H : preserves (fun w' => sales w' = sales w)
                (App.saveOrder db tableId order total)); [|by apply H].
  unfold App.saveOrder. destruct db; [|apply preserves_ret].
  apply preserves_try_catch;
    [|intros _; apply preserves_console_error, sales_onStore].
  apply updateDoc_sales.
Qed.

Lemma exec_then_ret {A B} (m : M A) (b : B) w :
  exec (bind m (fun _ => ret b)) w = exec m w.
Proof. unfold exec, bind. by destruct (m w) as [[a|e] w1]. Qed.

Lemma perform_sales db a w :
  sales (perform db a w) = sales w
  \/ exists tableId l cart sale,
       a = DoCheckout tableId (l :: cart)
       /\ sales (perform db a w) = sales w ++ [sale]
       /\ saleOk sale.
Proof.
  destruct a as [r t|tableId cart|tableId cart]; unfold perform.
  - left. apply initEffect_sales.
  - left. unfold OrderModal.handleSave. rewrite exec_then_ret.
    apply saveOrder_sales.
  - unfold OrderModal.handleCheckout, OrderModal.init.
    cbn [OrderModal.currentOrder]. destruct cart as [|l cart]; [by left|].
    cbn [length Nat.eqb]. rewrite exec_then_ret.
    destruct (handleCheckout_cases db tableId (l :: cart)
                (tableTotal (l :: cart)) w)
      as [(_ & Hs & _) | [(_ & Hs & _) | [(_ & Hs & _) | (doc & _ & _ & Hs & _)]]];
      [by left|by left| |];
      right; eexists tableId, l, cart, _; (split; [done|]);
      (split; [exact Hs|]);
      (split; [done|]); (split; [apply tableTotal_sum|by eexists]).
Qed.

(** X6. Sales are append-only. Whatever users do and whichever requests fail,
    the sales already recorded stay as they are, in place; what is added are
    sales with at least one line, whose total is the sum of price times
    quantity over their lines, stamped by the store; and no more sales are
    added than carts with a line were checked out. *)
Theorem run_sales_appended
  (db : option Firestore) (steps : list (Env * Action)) (w : World) :
  exists added,
    sales (run db steps w) = sales w ++ added
    /\ Forall saleOk added
    /\ (length added <= length (List.filter checksOut steps))%nat.
Proof.
  unfold run. revert w.
  induction steps as [|[e a] steps IH]; intros w.
  - exists []. rewrite app_nil_r. split; [done|]. split; [constructor|done].
  - cbn [fold_left fst snd].
    destruct (IH (perform db a (set_env e w))) as (added & Hs & Hok & Hlen).
    destruct (perform_sales db a (set_env e w))
      as [Hsame|(tableId & l & cart & sale & -> & Hone & Hsale)].
    + exists added. rewrite Hs, Hsame. split; [done|]. split; [done|].
      cbn [List.filter]. destruct (checksOut (e, a)); simpl; lia.
    + exists (sale :: added). rewrite Hs, Hone. cbn [set_env sales].
      rewrite <- app_assoc. split; [done|]. split; [by constructor|].
      cbn. lia.
Qed.

(** *** What the modal reports *)

Lemma saveOrder_returns db tableId order total w :
  fst (App.saveOrder db tableId order total w) = Ok tt.
Proof.
  unfold App.saveOrder. destruct db; [|done].
  unfold try_catch. by destruct (updateDoc _ _ w) as [[[]|e] w1].
Qed.

Lemma handleCheckout_returns db tableId order total w :
  fst (App.handleCheckout db tableId order total w) = Ok tt.
Proof.
  unfold App.handleCheckout. destruct db; [|done].
  unfold try_catch.
  by destruct (bind _ _ w) as [[[]|e] w1].
Qed.

(** X7. The modal reports success whatever became of the write: a save always
    ends with [Order saved!] and a checkout of a cart with a line always ends
    with [Checkout complete!], also when the store handle is missing, the
    request is lost or the table has no document; neither handler ever
    throws. *)
Theorem modal_reports_success
  (db : option Firestore) (tableId : Z) (st : OrderModal.State) (w : World) :
  fst (OrderModal.handleSave (App.saveOrder db) tableId st w)
  = Ok (OrderModal.setMessage "Order saved!" st)
  /\ (OrderModal.currentOrder st <> [] ->
      fst (OrderModal.handleCheckout (App.handleCheckout db) tableId st w)
      = Ok (OrderModal.setMessage "Checkout complete!" st)).
Proof.
  split.
  - unfold OrderModal.handleSave, bind.
    pose proof (saveOrder_returns db tableId (OrderModal.currentOrder st)
                  (tableTotal (OrderModal.currentOrder st)) w) as H.
    by destruct (App.saveOrder _ _ _ _ w) as [[[]|e] w1].
  - intros Hne. unfold OrderModal.handleCheckout, bind.
    destruct (OrderModal.currentOrder st) as [|l cart] eqn:Hc; [done|].
    cbn [length Nat.eqb].
    pose proof (handleCheckout_returns db tableId (l :: cart)
                  (tableTotal (l :: cart)) w) as H.
    by destruct (App.handleCheckout _ _ _ _ w) as [[[]|e] w1].
Qed.

Lemma modal_reports_success_witness :
  fst (OrderModal.handleCheckout (App.handleCheckout (Some firestore)) 3
         (OrderModal.init twoTeas) (sampleWorld [false]))
  = Ok (OrderModal.setMessage "Checkout complete!" (OrderModal.init twoTeas))
  /\ sales (exec (OrderModal.handleCheckout (App.handleCheckout (Some firestore))
                    3 (OrderModal.init twoTeas)) (sampleWorld [false])) = [].
Proof.
  split; [|reflexivity].
  apply (modal_reports_success (Some firestore) 3 (OrderModal.init twoTeas)
           (sampleWorld [false])).
  discriminate.
Defined.

(** *** A handler touches the document of its table only *)

Lemma saveOrder_tables db tableId order total w :
  let w' := exec (App.saveOrder db tableId order total) w in
  tables w' = tables w
  \/ exists old,
       tables w !! tableRef tableId = Some old
       /\ tables w'
          = <[tableRef tableId
              := (resolve (serverTime w) <$> saveFields order total) ∪ old]>
              (tables w).
Proof.
  destruct (saveOrder_cases db tableId order total w)
    as [(_ & Ht) | [(_ & Ht) | (doc & Hdoc & _ & Ht)]]; [by left|by left|].
  right. by exists doc.
Qed.

Lemma handleCheckout_tables db tableId order total w :
  let w' := exec (App.handleCheckout db tableId order total) w in
  tables w' = tables w
  \/ exists old,
       tables w !! tableRef tableId = Some old
       /\ tables w'
          = <[tableRef tableId
              := (resolve (serverTime w) <$> resetFields) ∪ old]> (tables w).
Proof.
  destruct (handleCheckout_cases db tableId order total w)
    as [(_ & _ & Ht) | [(_ & _ & Ht) | [(_ & _ & Ht) | (doc & Hdoc & _ & _ & Ht)]]];
    [by left|by left|by left|].
  right. by exists doc.
Qed.

(** X8. A save or a checkout of one table changes the document of no other
    table, and in the document of its own table no field but the ones it
    writes: the table number stays (and, for a checkout, the time of the last
    save). A save changes no sale. *)
Theorem handlers_touch_own_table
  (db : option Firestore) (tableId : Z) (order : Order) (total : Z) (w : World) :
  let saved := exec (App.saveOrder db tableId order total) w in
  let checked := exec (App.handleCheckout db tableId order total) w in
  (forall other,
      other <> tableId ->
      tables saved !! tableRef other = tables w !! tableRef other
      /\ tables checked !! tableRef other = tables w !! tableRef other)
  /\ field "tableId" saved tableId = field "tableId" w tableId
  /\ field "tableId" checked tableId = field "tableId" w tableId
  /\ field "lastUpdate" checked tableId = field "lastUpdate" w tableId
  /\ sales saved = sales w.
Proof.
  intros saved checked.
  pose proof (saveOrder_tables db tableId order total w) as Hsave.
  pose proof (handleCheckout_tables db tableId order total w) as Hcheck.
  cbv zeta in Hsave, Hcheck. fold saved in Hsave. fold checked in Hcheck.
  assert (Hkeep : forall (w' : World) data name,
             data !! name = None ->
             (tables w' = tables w
              \/ exists old,
                   tables w !! tableRef tableId = Some old
                   /\ tables w'
                      = <[tableRef tableId
                          := (resolve (serverTime w) <$> data) ∪ old]>
                          (tables w)) ->
             field name w' tableId = field name w tableId).
  { intros w' data name Hname [Ht|(old & Hold & Ht)]; unfold field;
      rewrite Ht; [done|].
    by rewrite lookup_insert_eq, Hold, lookup_merge_None. }
  split; [|split; [|split; [|split]]].
  - intros other Hne.
    assert (Href : tableRef tableId <> tableRef other)
      by (intros H; apply tableRef_inj in H; congruence).
    split.
    + destruct Hsave as [->|(old & _ & ->)]; [done|].
      by rewrite lookup_insert_ne.
    + destruct Hcheck as [->|(old & _ & ->)]; [done|].
      by rewrite lookup_insert_ne.
  - exact (Hkeep saved (saveFields order total) "tableId" eq_refl Hsave).
  - exact (Hkeep checked resetFields "tableId" eq_refl Hcheck).
  - exact (Hkeep checked resetFields "lastUpdate" eq_refl Hcheck).
  - apply saveOrder_sales.
Qed.

Lemma handlers_touch_own_table_witness :
  3 <> 4
  /\ tables (exec (App.saveOrder (Some firestore) 4 twoTeas 40) (sampleWorld []))
       !! tableRef 3
     = tables (sampleWorld []) !! tableRef 3.
Proof.
  assert (H : 3 <> 4) by lia.
  split; [exact H|].
  exact (proj1 (proj1 (handlers_touch_own_table (Some firestore) 4 twoTeas 40
                         (sampleWorld [])) 3 H)).
Defined.

(** X9. A save that cannot be written is lost without a trace in the store: when
    the store handle is missing, the table has no document, or the request
    is not delivered, no document is created or changed and no sale is
    touched, while the modal still reports [Order saved!]. In particular a
    save never creates a table document. *)
Theorem save_lost_silently
  (db : option Firestore) (tableId : Z) (st : OrderModal.State) (w : World) :
  db = None
  \/ tables w !! tableRef tableId = None
  \/ (exists rest, net w = false :: rest) ->
  let result := OrderModal.handleSave (App.saveOrder db) tableId st w in
  fst result = Ok (OrderModal.setMessage "Order saved!" st)
  /\ tables (snd result) = tables w
  /\ sales (snd result) = sales w.
Proof.
  intros Hcause result.
  assert (Hexec : snd result
                  = exec (App.saveOrder db tableId (OrderModal.currentOrder st)
                            (tableTotal (OrderModal.currentOrder st))) w).
  { unfold result, OrderModal.handleSave. apply exec_then_ret. }
  split; [|rewrite Hexec; split; [|apply saveOrder_sales]].
  - unfold result, OrderModal.handleSave, bind.
    pose proof (saveOrder_returns db tableId (OrderModal.currentOrder st)
                  (tableTotal (OrderModal.currentOrder st)) w) as H.
    by destruct (App.saveOrder _ _ _ _ w) as [[[]|e] w1].
  - destruct Hcause as [->|[Hnone|(rest & Hnet)]]; [done| |].
    + destruct (saveOrder_tables db tableId (OrderModal.currentOrder st)
                  (tableTotal (OrderModal.currentOrder st)) w)
        as [Ht|(old & Hold & _)]; [done|congruence].
    + destruct db; [|done].
      unfold exec, App.saveOrder, try_catch, updateDoc, delivered.
      rewrite Hnet. reflexivity.
Qed.

Lemma save_lost_silently_witness :
  tables (sampleWorld []) !! tableRef 7 = None
  /\ tables (snd (OrderModal.handleSave (App.saveOrder (Some firestore)) 7
                    (OrderModal.init twoTeas) (sampleWorld [])))
     = tables (sampleWorld []).
Proof.
  assert (H : tables (sampleWorld []) !! tableRef 7 = None) by reflexivity.
  split; [exact H|].
  exact (proj1 (proj2 (save_lost_silently (Some firestore) 7
                         (OrderModal.init twoTeas) (sampleWorld [])
                         (or_intror (or_introl H))))).
Defined.

(** *** Initialisation *)

Lemma lookup_initialised_other now xs t ref :
  (forall i, In i xs -> ref <> tableRef i) ->
  initialised now xs t !! ref = t !! ref.
Proof.
  unfold initialised. revert t.
  induction xs as [|x xs IH]; intros t Href; [done|].
  cbn [fold_left]. rewrite IH by (intros i Hi; apply Href; by right).
  apply lookup_insert_ne. intros H. by apply (Href x); [left|].
Qed.

Lemma lookup_initialised_in now xs t i :
  NoDup xs -> In i xs ->
  initialised now xs t !! tableRef i
  = Some ((resolve now <$> OrdersView.initialTable i)
          ∪ default ∅ (t !! tableRef i)).
Proof.
  unfold initialised. revert t.
  induction xs as [|x xs IH]; intros t Hnd Hin; [done|].
  apply NoDup_cons in Hnd as [Hx Hnd]. cbn [fold_left].
  destruct (decide (i = x)) as [->|Hne].
  - fold (initialised now xs
            (<[tableRef x := (resolve now <$> OrdersView.initialTable x)
                              ∪ default ∅ (t !! tableRef x)]> t)).
    rewrite lookup_initialised_other; [apply lookup_insert_eq|].
    intros j Hj Heq. apply tableRef_inj in Heq as ->.
    apply Hx. by apply list_elem_of_In.
  - destruct Hin as [->|Hin]; [done|]. rewrite (IH _ Hnd Hin).
    rewrite lookup_insert_ne; [done|].
    intros H. apply tableRef_inj in H. congruence.
Qed.

Lemma setDoc_merge_ok ref data w rest :
  net w = true :: rest \/ (net w = [] /\ rest = []) ->
  setDoc_merge ref data w
  = (Ok tt,
     record_request
       (set_tables (set_net w rest)
          (<[ref := (resolve (serverTime w) <$> data)
                    ∪ default ∅ (tables w !! ref)]> (tables w)))
       (WSetDocMerge ref data) true).
Proof.
  destruct w as [t s st ct nt rq co]. cbn [net].
  intros [->|[-> ->]]; reflexivity.
Qed.

(** The loop of initialisation when every request is delivered. *)
Lemma init_loop_ok xs w :
  reliable (length xs) w ->
  exists w',
    for_each xs (fun i => setDoc_merge (tableRef i) (OrdersView.initialTable i)) w
    = (Ok tt, w')
    /\ tables w' = initialised (serverTime w) xs (tables w)
    /\ console w' = console w
    /\ length (requests w') = (length (requests w) + length xs)%nat.
Proof.
  revert w. induction xs as [|x xs IH]; intros w Hrel.
  - exists w. cbn. split; [done|]. split; [done|]. split; [done|lia].
  - unfold reliable in Hrel. cbn [length firstn] in Hrel.
    assert (Hnet : exists rest,
               (net w = true :: rest \/ (net w = [] /\ rest = []))
               /\ Forall (fun b => b = true) (firstn (length xs) rest)).
    { destruct (net w) as [|b rest] eqn:Hn.
      - exists []. split; [by right|]. by destruct (length xs).
      - apply Forall_cons in Hrel as [-> Hrel]. exists rest. split; [by left|done]. }
    destruct Hnet as (rest & Hhead & Hrest).
    cbn [for_each]. unfold bind.
    rewrite (setDoc_merge_ok _ _ w rest Hhead).
    match goal with
    | |- context [for_each xs _ ?w1] =>
        destruct (IH w1) as (w' & Hrun & Ht & Hc & Hr); [exact Hrest|]
    end.
    exists w'. rewrite Hrun. split; [done|].
    split; [exact Ht|]. split; [exact Hc|].
    rewrite Hr. cbn. rewrite length_app. cbn. lia.
Qed.

(** The loop of initialisation when the request after [pre] is lost. *)
Lemma init_loop_fail pre x post w rest :
  net w = replicate (length pre) true ++ false :: rest ->
  exists w',
    for_each (pre ++ x :: post)
      (fun i => setDoc_merge (tableRef i) (OrdersView.initialTable i)) w
    = (Throw Unavailable, w')
    /\ tables w' = initialised (serverTime w) pre (tables w)
    /\ console w' = console w
    /\ length (requests w') = (length (requests w) + length pre + 1)%nat.
Proof.
  revert w. induction pre as [|y pre IH]; intros w Hnet.
  - cbn [app for_each length replicate] in *. unfold bind, setDoc_merge, delivered.
    rewrite Hnet. eexists. split; [reflexivity|]. cbn.
    split; [done|]. split; [done|]. rewrite length_app. cbn. lia.
  - cbn [app for_each length replicate] in *. unfold bind.
    rewrite (setDoc_merge_ok _ _ w (replicate (length pre) true ++ false :: rest))
      by (left; exact Hnet).
    match goal with
    | |- context [for_each _ _ ?w1] =>
        destruct (IH w1) as (w' & Hrun & Ht & Hc & Hr); [reflexivity|]
    end.
    exists w'. rewrite Hrun. split; [done|].
    split; [exact Ht|]. split; [exact Hc|].
    rewrite Hr. cbn. rewrite length_app. cbn. lia.
Qed.

Lemma initialTable_fields i (old : gmap string Value) now :
  let d := (resolve now <$> OrdersView.initialTable i) ∪ old in
  d !! "tableId" = Some (VNum i)
  /\ d !! "status" = Some (VStr "Closed")
  /\ d !! "order" = Some (VItems [])
  /\ d !! "total" = Some (VNum 0)
  /\ forall name,
       name <> "tableId" -> name <> "status" -> name <> "order" ->
       name <> "total" -> d !! name = old !! name.
Proof.
  intros d. split; [|split; [|split; [|split]]].
  - exact (lookup_merge_Some (OrdersView.initialTable i) old now
             "tableId" (VNum i) eq_refl).
  - exact (lookup_merge_Some (OrdersView.initialTable i) old now
             "status" (VStr "Closed") eq_refl).
  - exact (lookup_merge_Some (OrdersView.initialTable i) old now
             "order" (VItems []) eq_refl).
  - exact (lookup_merge_Some (OrdersView.initialTable i) old now
             "total" (VNum 0) eq_refl).
  - intros name H1 H2 H3 H4. apply lookup_merge_None.
    unfold OrdersView.initialTable.
    by rewrite !lookup_insert_ne, lookup_empty.
Qed.

Lemma tableNumbers_NoDup : NoDup tableNumbers.
Proof. refine (bool_decide_unpack _ _). vm_compute. exact I. Qed.

Lemma initEffect_ok w :
  reliable 10 w ->
  let w' := exec (OrdersView.initEffect true (Some firestore) []) w in
  tables w' = initialised (serverTime w) tableNumbers (tables w)
  /\ console w'
     = console w ++ ["Initializing tables..."; "Tables initialized."].
Proof.
  intros Hrel w'.
  destruct (init_loop_ok tableNumbers (print w "Initializing tables...") Hrel)
    as (w1 & Hrun & Ht & Hc & _).
  unfold w', exec, OrdersView.initEffect, OrdersView.initTables, bind,
    try_catch, console_log.
  cbn [andb length Nat.eqb]. fold tableNumbers. rewrite Hrun.
  cbn [snd print tables console].
  split; [exact Ht|]. rewrite Hc. cbn [print console]. by rewrite <- app_assoc.
Qed.

(** X10. When the dashboard starts with no table in its local copy and all ten
    requests are delivered, initialisation leaves each table 1..10 closed with
    an empty order and a total of 0 (whatever the store held for it before,
    keeping only the fields its write does not name), leaves every other
    document and every sale alone, and logs its start and its end. *)
Theorem initEffect_resets_tables (w : World) :
  reliable 10 w ->
  let w' := exec (OrdersView.initEffect true (Some firestore) []) w in
  (forall i,
      1 <= i <= 10 ->
      exists d,
        tables w' !! tableRef i = Some d
        /\ d !! "tableId" = Some (VNum i)
        /\ d !! "status" = Some (VStr "Closed")
        /\ d !! "order" = Some (VItems [])
        /\ d !! "total" = Some (VNum 0)
        /\ forall name,
             name <> "tableId" -> name <> "status" -> name <> "order" ->
             name <> "total" ->
             d !! name = default ∅ (tables w !! tableRef i) !! name)
  /\ (forall ref,
         (forall i, 1 <= i <= 10 -> ref <> tableRef i) ->
         tables w' !! ref = tables w !! ref)
  /\ sales w' = sales w
  /\ console w'
     = console w ++ ["Initializing tables..."; "Tables initialized."].
Proof.
  intros Hrel w'.
  assert (Hin : forall i, In i tableNumbers <-> 1 <= i <= 10)
    by (intros i; unfold tableNumbers; simpl; lia).
  destruct (initEffect_ok w Hrel) as [Htables Hconsole].
  fold w' in Htables, Hconsole.
  split; [|split; [|split; [apply initEffect_sales|exact Hconsole]]].
  - intros i Hi. eexists. rewrite Htables.
    split; [apply lookup_initialised_in;
            [apply tableNumbers_NoDup|by apply Hin]|].
    apply initialTable_fields.
  - intros ref Href. rewrite Htables. apply lookup_initialised_other.
    intros i Hi. apply Href. by apply Hin.
Qed.

Lemma initEffect_resets_tables_witness :
  reliable 10 emptyWorld
  /\ exists d,
       tables (exec (OrdersView.initEffect true (Some firestore) []) emptyWorld)
         !! tableRef 7 = Some d
       /\ d !! "status" = Some (VStr "Closed").
Proof.
  assert (H : reliable 10 emptyWorld) by (unfold reliable; simpl; constructor).
  split; [exact H|].
  destruct (proj1 (initEffect_resets_tables emptyWorld H) 7 ltac:(lia))
    as (d & Hd & _ & Hs & _).
  exists d. split; [exact Hd|exact Hs].
Defined.

(** X11. Initialisation stops at the first request that is lost: when the first
    [k] requests are delivered and the next one is not, the tables 1..k are
    written, the tables after them are left as they were (not created when
    they had no document), no further request is sent, and the console shows
    the error instead of the end of initialisation. *)
Theorem initEffect_stops_at_failure (w : World) (k : nat) (rest : list bool) :
  (k < 10)%nat ->
  net w = replicate k true ++ false :: rest ->
  let w' := exec (OrdersView.initEffect true (Some firestore) []) w in
  (forall i,
      1 <= i <= Z.of_nat k ->
      exists d,
        tables w' !! tableRef i = Some d
        /\ d !! "status" = Some (VStr "Closed")
        /\ d !! "order" = Some (VItems [])
        /\ d !! "total" = Some (VNum 0))
  /\ (forall i,
         Z.of_nat k < i ->
         tables w' !! tableRef i = tables w !! tableRef i)
  /\ length (requests w') = (length (requests w) + k + 1)%nat
  /\ console w'
     = console w ++ ["Initializing tables..."; "Error initializing tables:"].
Proof.
  intros Hk Hnet w'.
  set (pre := firstn k tableNumbers).
  assert (Hsplit : exists x post,
             tableNumbers = pre ++ x :: post /\ length pre = k
             /\ (forall i, In i pre <-> 1 <= i <= Z.of_nat k)).
  { unfold pre, tableNumbers.
    do 10 (destruct k as [|k];
           [eexists _, _; split; [reflexivity|]; split; [reflexivity|];
            intros i; simpl; lia|]).
    lia. }
  destruct Hsplit as (x & post & Hnum & Hlen & Hpre).
  destruct (init_loop_fail pre x post (print w "Initializing tables...") rest)
    as (w1 & Hrun & Ht & Hc & Hr); [by rewrite Hlen|].
  assert (Hw' : tables w' = initialised (serverTime w) pre (tables w)
                /\ length (requests w') = (length (requests w) + k + 1)%nat
                /\ console w'
                   = console w ++ ["Initializing tables...";
                                   "Error initializing tables:"]).
  { unfold w', exec, OrdersView.initEffect, OrdersView.initTables, bind,
      try_catch, console_log, console_error.
    cbn [andb length Nat.eqb]. fold tableNumbers. rewrite Hnum, Hrun. cbn.
    split; [exact Ht|]. split; [by rewrite Hr, Hlen|].
    rewrite Hc. cbn. by rewrite <- app_assoc. }
  destruct Hw' as (Htables & Hrequests & Hconsole).
  assert (Hnd : NoDup pre).
  { pose proof tableNumbers_NoDup as H. rewrite Hnum in H.
    by apply NoDup_app in H as [H _]. }
  split; [|split; [|split; [exact Hrequests|exact Hconsole]]].
  - intros i Hi. eexists. rewrite Htables.
    split; [apply lookup_initialised_in; [exact Hnd|by apply Hpre]|].
    pose proof (initialTable_fields i
                  (default ∅ (tables w !! tableRef i)) (serverTime w))
      as (_ & Hs & Ho & Htot & _).
    done.
  - intros i Hi. rewrite Htables. apply lookup_initialised_other.
    intros j Hj Heq. apply tableRef_inj in Heq as ->. apply Hpre in Hj. lia.
Qed.

Lemma initEffect_stops_at_failure_witness :
  let w := mkWorld ∅ [] 0 0 [true; true; false] [] [] in
  let w' := exec (OrdersView.initEffect true (Some firestore) []) w in
  tables w' !! tableRef 3 = None
  /\ length (requests w') = 3%nat.
Proof.
  intros w w'.
  destruct (initEffect_stops_at_failure w 2 [] ltac:(lia) eq_refl)
    as (_ & Hafter & Hreq & _).
  split; [|exact Hreq].
  exact (eq_trans (Hafter 3 ltac:(lia)) eq_refl).
Defined.

(** ** The local copy of the tables and the dashboard *)

Lemma find_unique {A} (p : A -> bool) (l : list A) (x : A) :
  In x l -> p x = true -> (forall y, In y l -> p y = true -> y = x) ->
  List.find p l = Some x.
Proof.
  induction l as [|y l IH]; intros Hin Hx Huniq; [done|].
  simpl. destruct (p y) eqn:Hy.
  - f_equal. apply Huniq; [by left|done].
  - destruct Hin as [->|Hin]; [congruence|].
    apply IH; [done|done|]. intros z Hz. apply Huniq. by right.
Qed.

Lemma find_none_iff {A} (p : A -> bool) (l : list A) :
  (forall y, In y l -> p y = false) -> List.find p l = None.
Proof.
  induction l as [|y l IH]; intros H; [done|].
  simpl. rewrite (H y) by (by left). apply IH. intros z Hz. apply H. by right.
Qed.

Lemma In_onTablesSnapshot collection t :
  In t (onTablesSnapshot (queryDocs collection))
  <-> exists ref d, collection !! ref = Some d /\ t = tableObject (ref, d).
Proof.
  unfold onTablesSnapshot, queryDocs.
  rewrite <- list_elem_of_In, sort_perm, list_elem_of_In, in_map_iff.
  split.
  - intros ([ref d] & <- & Hin). exists ref, d. split; [|done].
    apply list_elem_of_In in Hin. rewrite sort_perm in Hin.
    by apply elem_of_map_to_list in Hin.
  - intros (ref & d & Hd & ->). exists (ref, d). split; [done|].
    apply list_elem_of_In. rewrite sort_perm. by apply elem_of_map_to_list.
Qed.

Lemma tableObject_lookup doc name :
  name <> "id" -> tableObject doc !! name = snd doc !! name.
Proof. intros H. unfold tableObject. by apply lookup_insert_ne. Qed.

Lemma hasTableId_true num t :
  hasTableId num t = true <-> t !! "tableId" = Some (VNum num).
Proof.
  unfold hasTableId. destruct (t !! "tableId") as [[n| | | |]|]; try done.
  rewrite Z.eqb_eq. split; [by intros ->|by intros [= ->]].
Qed.

Lemma tableData_found collection num d :
  collectionOk collection ->
  collection !! tableRef num = Some d ->
  tableData (onTablesSnapshot (queryDocs collection)) num
  = tableObject (tableRef num, d).
Proof.
  intros Hok Hd.
  destruct (Hok _ _ Hd) as (i & order & Href & _ & Hid & _).
  apply tableRef_inj in Href as <-.
  unfold tableData. erewrite find_unique; [done| | |].
  - apply In_onTablesSnapshot. by exists (tableRef num), d.
  - apply hasTableId_true. by rewrite tableObject_lookup.
  - intros t (ref & d' & Hd' & ->)%In_onTablesSnapshot Ht.
    apply hasTableId_true in Ht. rewrite tableObject_lookup in Ht by done.
    destruct (Hok _ _ Hd') as (j & _ & -> & _ & Hj & _).
    cbn in Ht. rewrite Hj in Ht. injection Ht as ->. congruence.
Qed.

Lemma tableData_missing collection num :
  collectionOk collection ->
  collection !! tableRef num = None ->
  tableData (onTablesSnapshot (queryDocs collection)) num = defaultTable num.
Proof.
  intros Hok Hnone. unfold tableData. rewrite find_none_iff; [done|].
  intros t (ref & d' & Hd' & ->)%In_onTablesSnapshot.
  destruct (hasTableId num (tableObject (ref, d'))) eqn:Ht; [|done].
  apply hasTableId_true in Ht. rewrite tableObject_lookup in Ht by done.
  destruct (Hok _ _ Hd') as (j & _ & -> & _ & Hj & _).
  cbn in Ht. rewrite Hj in Ht. injection Ht as ->. congruence.
Qed.

(** X12. What a card of the dashboard shows is what the store holds. After a
    snapshot of a collection of well-formed table documents, the card of a
    table number reads the document stored for that number (with its id
    added): it is open exactly when the stored order has a line. A number
    with no document gets the default card, closed with [0.00]. *)
Theorem tableData_shows_store
  (collection : gmap string (gmap string Value)) (num : Z) :
  collectionOk collection ->
  let local := onTablesSnapshot (queryDocs collection) in
  (forall d,
      collection !! tableRef num = Some d ->
      tableData local num = <["id" := VStr (tableRef num)]> d
      /\ (isOpen (tableData local num) = true
          <-> exists l order, d !! "order" = Some (VItems (l :: order))))
  /\ (collection !! tableRef num = None ->
      tableData local num = defaultTable num
      /\ isOpen (tableData local num) = false
      /\ totalText (tableData local num) = Some "0.00").
Proof.
  intros Hok local. split.
  - intros d Hd. unfold local. rewrite (tableData_found _ _ _ Hok Hd).
    split; [done|].
    destruct (Hok _ _ Hd) as (i & order & _ & _ & _ & Ho & _ & Hs).
    unfold isOpen. rewrite tableObject_lookup by done. cbn [snd]. rewrite Hs.
    destruct order as [|l order]; cbn.
    + split; [done|]. intros (l & o & Hlo). congruence.
    + split; [|done]. intros _. by exists l, order.
  - intros Hnone. unfold local. by rewrite (tableData_missing _ _ Hok Hnone).
Qed.

Lemma tableData_shows_store_witness :
  collectionOk (tables (sampleWorld []))
  /\ tableData (onTablesSnapshot (queryDocs (tables (sampleWorld [])))) 3
     = <["id" := VStr (tableRef 3)]> openTable3
  /\ tableData (onTablesSnapshot (queryDocs (tables (sampleWorld [])))) 5
     = defaultTable 5.
Proof.
  assert (H : collectionOk (tables (sampleWorld []))).
  { intros ref d. cbn [sampleWorld tables].
    destruct (decide (ref = "3")) as [->|Hne].
    - rewrite lookup_insert_eq. intros [= <-].
      exists 3, twoTeas. repeat split; done.
    - by rewrite lookup_insert_ne, lookup_empty. }
  split; [exact H|]. split.
  - exact (proj1 (proj1 (tableData_shows_store _ 3 H) openTable3 eq_refl)).
  - exact (proj1 (proj2 (tableData_shows_store _ 5 H) eq_refl)).
Defined.

Lemma Sorted_strengthen {A} (R R' : A -> A -> Prop) (l : list A) :
  (forall a b, In a l -> In b l -> a <> b -> R a b -> R' a b) ->
  NoDup l -> Sorted R l -> Sorted R' l.
Proof.
  intros Himp Hnd Hs. induction Hs as [|a l Hl IH Ha]; [constructor|].
  apply NoDup_cons in Hnd as [Hna Hnd]. constructor.
  - apply IH; [|done]. intros x y Hx Hy. apply Himp; by right.
  - destruct Ha as [|b l Hab]; constructor.
    apply Himp; [by left|right; by left| |done].
    intros ->. apply Hna. apply list_elem_of_here.
Qed.

Lemma compareTableId_total a b :
  0 < compareTableId a b -> compareTableId b a <= 0.
Proof.
  unfold compareTableId. destruct (tableIdOf a), (tableIdOf b); lia.
Qed.

Lemma tableObject_inj_on collection p q :
  p ∈ map_to_list collection -> q ∈ map_to_list collection ->
  tableObject p = tableObject q -> p = q.
Proof.
  destruct p as [r1 d1], q as [r2 d2].
  intros Hp%elem_of_map_to_list Hq%elem_of_map_to_list Heq.
  assert (Hr : r1 = r2).
  { assert (H : tableObject (r1, d1) !! "id" = tableObject (r2, d2) !! "id")
      by (by rewrite Heq).
    unfold tableObject in H. rewrite !lookup_insert_eq in H. cbn in H.
    congruence. }
  subst r2. congruence.
Qed.

(** X13. The local copy of the tables is the snapshot in ascending order of the
    table numbers (the snapshot itself comes in the order of the document
    ids, where ["10"] is in front of ["2"]): it holds each stored document
    once, and the table numbers increase strictly along it. *)
Theorem onTablesSnapshot_ascending
  (collection : gmap string (gmap string Value)) :
  collectionOk collection ->
  let local := onTablesSnapshot (queryDocs collection) in
  Permutation local (List.map tableObject (map_to_list collection))
  /\ Sorted tableIdLt local.
Proof.
  intros Hok local.
  assert (Hperm : Permutation local
                    (List.map tableObject (map_to_list collection))).
  { unfold local, onTablesSnapshot, queryDocs.
    rewrite sort_perm. apply Permutation_map. apply sort_perm. }
  split; [exact Hperm|].
  assert (Hnd : NoDup local).
  { rewrite Hperm. apply (NoDup_fmap_2_strong tableObject).
    - intros p q. apply tableObject_inj_on.
    - apply NoDup_map_to_list. }
  apply (Sorted_strengthen (sort_le compareTableId)); [|exact Hnd|].
  - intros a b
      (r1 & d1 & Hd1 & ->)%In_onTablesSnapshot
      (r2 & d2 & Hd2 & ->)%In_onTablesSnapshot Hne Hle.
    destruct (Hok _ _ Hd1) as (i & _ & -> & _ & Hi & _).
    destruct (Hok _ _ Hd2) as (j & _ & -> & _ & Hj & _).
    assert (Ha : tableIdOf (tableObject (tableRef i, d1)) = Some i).
    { unfold tableIdOf. rewrite tableObject_lookup by done. cbn. by rewrite Hi. }
    assert (Hb : tableIdOf (tableObject (tableRef j, d2)) = Some j).
    { unfold tableIdOf. rewrite tableObject_lookup by done. cbn. by rewrite Hj. }
    exists i, j. split; [done|]. split; [done|].
    unfold sort_le, compareTableId in Hle. rewrite Ha, Hb in Hle.
    destruct (decide (i = j)) as [->|Hij]; [|lia].
    exfalso. apply Hne. congruence.
  - apply sort_sorted. apply compareTableId_total.
Qed.

Lemma onTablesSnapshot_ascending_witness :
  let collection :=
    tables (exec (OrdersView.initEffect true (Some firestore) []) emptyWorld) in
  collectionOk collection
  /\ List.map fst (queryDocs collection)
     = ["1"; "10"; "2"; "3"; "4"; "5"; "6"; "7"; "8"; "9"]
  /\ List.map tableIdOf (onTablesSnapshot (queryDocs collection))
     = List.map Some tableNumbers
  /\ Sorted tableIdLt (onTablesSnapshot (queryDocs collection)).
Proof.
  intros collection.
  assert (H : collectionOk collection).
  { apply (initEffect_storeOk true (Some firestore) [] emptyWorld).
    intros ref d Hd. cbn in Hd. by rewrite lookup_empty in Hd. }
  split; [exact H|]. split; [vm_compute; reflexivity|].
  split; [vm_compute; reflexivity|].
  exact (proj2 (onTablesSnapshot_ascending collection H)).
Defined.

(** X14. A fresh start, end to end: once initialisation has gone through on a
    store of well-formed documents and its result has come back on the
    tables feed, every one of the ten cards of the dashboard is closed and
    shows [0.00]. *)
Theorem dashboard_after_init (w : World) (num : Z) :
  storeOk w -> reliable 10 w -> 1 <= num <= 10 ->
  let w' := exec (OrdersView.initEffect true (Some firestore) []) w in
  let local := onTablesSnapshot (queryDocs (tables w')) in
  isOpen (tableData local num) = false
  /\ totalText (tableData local num) = Some "0.00".
Proof.
  intros Hok Hrel Hnum w' local.
  assert (Hok' : collectionOk (tables w'))
    by (by apply (initEffect_storeOk true (Some firestore) [] w)).
  destruct (initEffect_ok w Hrel) as [Htables _]. fold w' in Htables.
  assert (Hd : tables w' !! tableRef num
               = Some ((resolve (serverTime w) <$> OrdersView.initialTable num)
                       ∪ default ∅ (tables w !! tableRef num))).
  { rewrite Htables. apply lookup_initialised_in; [apply tableNumbers_NoDup|].
    unfold tableNumbers. simpl. lia. }
  unfold local. rewrite (tableData_found _ _ _ Hok' Hd).
  pose proof (initialTable_fields num
                (default ∅ (tables w !! tableRef num)) (serverTime w))
    as (_ & Hs & _ & Ht & _).
  unfold isOpen, totalText. rewrite !tableObject_lookup by done. cbn [snd].
  by rewrite Hs, Ht.
Qed.

Lemma dashboard_after_init_witness :
  storeOk (sampleWorld []) /\ reliable 10 (sampleWorld []) /\ 1 <= 3 <= 10
  /\ isOpen (tableData
               (onTablesSnapshot
                  (queryDocs
                     (tables (exec (OrdersView.initEffect true (Some firestore) [])
                                   (sampleWorld []))))) 3) = false.
Proof.
  assert (H : storeOk (sampleWorld [])).
  { intros ref d. cbn [sampleWorld tables].
    destruct (decide (ref = "3")) as [->|Hne].
    - rewrite lookup_insert_eq. intros [= <-].
      exists 3, twoTeas. repeat split; done.
    - by rewrite lookup_insert_ne, lookup_empty. }
  assert (Hrel : reliable 10 (sampleWorld []))
    by (unfold reliable; simpl; constructor).
  assert (Hnum : 1 <= 3 <= 10) by lia.
  split; [exact H|]. split; [exact Hrel|]. split; [exact Hnum|].
  exact (proj1 (dashboard_after_init (sampleWorld []) 3 H Hrel Hnum)).
Defined.

(** ** The report, further *)

Lemma Forall2_length_eq {A B} (R : A -> B -> Prop) l1 l2 :
  Forall2 R l1 l2 -> length l1 = length l2.
Proof. induction 1; simpl; congruence. Qed.

(** X17. The report is empty exactly when there is no sale, and then the total
    shown is 0; it never has more rows than there are sales. *)
Theorem aggregatedData_empty_iff
  (localTZA : Z -> Z) (now : Z) (reportType : ReportType)
  (salesData : list Sale.t) :
  (aggregatedData localTZA now reportType salesData = [] <-> salesData = [])
  /\ (salesData = [] -> totalSales localTZA now reportType salesData = 0)
  /\ (length (aggregatedData localTZA now reportType salesData)
      <= length salesData)%nat.
Proof.
  destruct (aggregatedData_rows localTZA now reportType salesData)
    as (keys & rows & Hnd & Hkeys & Hrows & Hperm).
  pose proof (Forall2_length_eq _ _ _ Hrows) as Hlen.
  pose proof (Permutation_length Hperm) as Hlen'.
  split; [split|split].
  - intros Hempty. rewrite Hempty in Hlen'. cbn in Hlen'.
    destruct keys as [|k keys]; [|cbn in Hlen; lia].
    destruct salesData as [|sale salesData]; [done|].
    exfalso.
    apply (proj2 (Hkeys (bucketKey localTZA now reportType sale))).
    exists sale. split; [by left|done].
  - by intros ->.
  - by intros ->.
  - rewrite Hlen', <- Hlen.
    assert (Hincl : incl keys (List.map (bucketKey localTZA now reportType)
                                        salesData)).
    { intros k (sale & Hin & <-)%Hkeys. by apply in_map. }
    pose proof (NoDup_incl_length (proj1 (NoDup_ListNoDup keys) Hnd) Hincl) as H.
    by rewrite length_map in H.
Qed.

Lemma bucket_unstamped localTZA now reportType sale :
  Sale.timestamp sale = None ->
  bucket localTZA now reportType sale = todayBucket localTZA now reportType.
Proof.
  intros H. unfold bucket, todayBucket, saleDate. rewrite H.
  by destruct reportType.
Qed.

Lemma filter_all {A} (p : A -> bool) (l : list A) :
  Forall (fun x => p x = true) l -> List.filter p l = l.
Proof.
  induction 1 as [|x l Hx _ IH]; simpl; [done|]. rewrite Hx. by f_equal.
Qed.

(** X18. Sales without a timestamp all count for the current day: whatever the
    report type, a list of such sales gives a single row, labelled with the
    bucket of today and holding the sum of all their totals. *)
Theorem aggregatedData_unstamped
  (localTZA : Z -> Z) (now : Z) (reportType : ReportType)
  (salesData : list Sale.t) :
  salesData <> [] ->
  Forall (fun sale => Sale.timestamp sale = None) salesData ->
  aggregatedData localTZA now reportType salesData
  = [ReportRow.mk (snd (todayBucket localTZA now reportType)) (sumTotals salesData)].
Proof.
  intros Hne Hnone.
  destruct (aggregatedData_rows localTZA now reportType salesData)
    as (keys & rows & Hnd & Hkeys & Hrows & Hperm).
  set (k0 := fst (todayBucket localTZA now reportType)).
  assert (Hall : Forall (fun sale => inBucket localTZA now reportType k0 sale
                                     = true) salesData).
  { rewrite Forall_forall in Hnone |- *. intros sale Hin.
    unfold inBucket, bucketKey. rewrite (bucket_unstamped _ _ _ _ (Hnone _ Hin)).
    apply String.eqb_refl. }
  assert (Hk : forall k, In k keys <-> k = k0).
  { intros k. rewrite Hkeys. split.
    - intros (sale & Hin & <-). rewrite Forall_forall in Hall.
      apply list_elem_of_In in Hin. apply Hall in Hin.
      by apply String.eqb_eq in Hin.
    - intros ->. destruct salesData as [|sale l]; [done|].
      exists sale. split; [by left|].
      apply Forall_cons in Hall as [H _]. by apply String.eqb_eq in H. }
  assert (Hkeys1 : keys = [k0]).
  { destruct keys as [|k [|k' keys]].
    - exfalso. by apply (proj2 (Hk k0)).
    - f_equal. apply Hk. by left.
    - exfalso. apply NoDup_cons in Hnd as [Hnot _]. apply Hnot.
      rewrite (proj1 (Hk k) ltac:(by left)).
      rewrite <- (proj1 (Hk k') ltac:(right; by left)).
      apply list_elem_of_here. }
  subst keys. inversion Hrows as [|? row ? rows' Hrow Hnil]; subst.
  inversion Hnil; subst.
  symmetry in Hperm. apply Permutation_length_1_inv in Hperm.
  rewrite Hperm. f_equal.
  unfold bucketRow in Hrow.
  destruct (List.find (inBucket localTZA now reportType k0) salesData)
    as [first|] eqn:Hfind; [|done].
  injection Hrow as <-. f_equal.
  - apply find_some in Hfind as [Hin _]. unfold bucketLabel.
    rewrite Forall_forall in Hnone. apply list_elem_of_In in Hin.
    by rewrite (bucket_unstamped _ _ _ _ (Hnone _ Hin)).
  - unfold bucketSales. by rewrite (filter_all _ _ Hall).
Qed.

Lemma aggregatedData_unstamped_witness :
  unstampedSales <> []
  /\ Forall (fun sale => Sale.timestamp sale = None) unstampedSales
  /\ aggregatedData ist 1710064800000 Monthly unstampedSales
     = [ReportRow.mk "Mar 2024" 100].
Proof.
  assert (H1 : unstampedSales <> []) by discriminate.
  assert (H2 : Forall (fun sale => Sale.timestamp sale = None) unstampedSales)
    by (repeat constructor).
  split; [exact H1|]. split; [exact H2|].
  exact (aggregatedData_unstamped ist 1710064800000 Monthly unstampedSales H1 H2).
Defined.

Lemma aggregatedData_empty_iff_witness :
  exampleSales <> []
  /\ aggregatedData utc 0 Yearly exampleSales <> []
  /\ (length (aggregatedData utc 0 Yearly exampleSales) <= 3)%nat.
Proof.
  assert (H : exampleSales <> []) by discriminate.
  split; [exact H|].
  destruct (aggregatedData_empty_iff utc 0 Yearly exampleSales)
    as ([Hempty _] & _ & Hlen).
  split; [|exact Hlen].
  intros Hnil. exact (H (Hempty Hnil)).
Defined.

(** *** Daily and yearly reports *)

Lemma label_lt_trans a b c : label_lt a b -> label_lt b c -> label_lt a c.
Proof.
  unfold label_lt. intros Hab Hbc.
  assert (Hle : String.le (ReportRow.name a) (ReportRow.name c)).
  { transitivity (ReportRow.name b); unfold String.le, String.leb;
      [by rewrite Hab|by rewrite Hbc]. }
  unfold String.le, String.leb in Hle.
  destruct (String.compare (ReportRow.name a) (ReportRow.name c)) eqn:Hac; [|done|done].
  apply String.compare_eq_iff in Hac. rewrite Hac in Hab.
  rewrite String.compare_antisym, Hbc in Hab. discriminate.
Qed.

Lemma label_lt_asym a b : label_lt a b -> label_lt b a -> a = b.
Proof.
  unfold label_lt. intros Hab Hba.
  rewrite String.compare_antisym, Hba in Hab. discriminate.
Qed.

Lemma sumTotals_perm l1 l2 : Permutation l1 l2 -> sumTotals l1 = sumTotals l2.
Proof.
  induction 1 as [|x l l' _ IH|x y l|l l' l'' _ IH1 _ IH2]; simpl; lia.
Qed.

Lemma filter_perm {A} (p : A -> bool) (l1 l2 : list A) :
  Permutation l1 l2 -> Permutation (List.filter p l1) (List.filter p l2).
Proof.
  induction 1 as [|x l l' _ IH|x y l|l l' l'' _ IH1 _ IH2]; simpl.
  - done.
  - destruct (p x); [by constructor|done].
  - destruct (p x), (p y); try done. apply perm_swap.
  - by etransitivity.
Qed.

Section KeyLabelled.
Variable localTZA : Z -> Z.
Variable now : Z.
Variable reportType : ReportType.
Hypothesis not_monthly : reportType <> Monthly.

Lemma bucketLabel_key sale :
  bucketLabel localTZA now reportType sale
  = bucketKey localTZA now reportType sale.
Proof.
  unfold bucketLabel, bucketKey, bucket.
  destruct reportType; [|exfalso; by apply not_monthly|];
    cbv zeta; cbn [fst snd]; reflexivity.
Qed.

(** In a daily or yearly report the label of a row is the key of its
    bucket. *)
Lemma aggregatedData_keyed salesData :
  exists keys,
    NoDup keys
    /\ (forall key,
           In key keys
           <-> exists sale, In sale salesData
                            /\ bucketKey localTZA now reportType sale = key)
    /\ Permutation
         (aggregatedData localTZA now reportType salesData)
         (List.map (fun key =>
                      ReportRow.mk key (bucketSales localTZA now reportType key
                                              salesData)) keys).
Proof.
  destruct (aggregatedData_rows localTZA now reportType salesData)
    as (keys & rows & Hnd & Hkeys & Hrows & Hperm).
  exists keys. split; [done|]. split; [done|].
  rewrite Hperm. clear Hperm Hnd Hkeys.
  induction Hrows as [|key row keys rows Hrow _ IH]; [done|].
  simpl. rewrite IH.
  unfold bucketRow in Hrow.
  destruct (List.find _ salesData) as [first|] eqn:Hfind; [|done].
  injection Hrow as <-. apply find_some in Hfind as [_ Hkey].
  apply String.eqb_eq in Hkey. by rewrite bucketLabel_key, Hkey.
Qed.

Lemma aggregatedData_strict salesData :
  Sorted label_lt (aggregatedData localTZA now reportType salesData).
Proof.
  destruct (aggregatedData_keyed salesData) as (keys & Hnd & _ & Hperm).
  assert (Hin : forall a,
             In a (aggregatedData localTZA now reportType salesData) ->
             a = ReportRow.mk (ReportRow.name a)
                        (bucketSales localTZA now reportType (ReportRow.name a)
                                     salesData)).
  { intros a Ha. apply list_elem_of_In in Ha. rewrite Hperm in Ha.
    apply list_elem_of_In, in_map_iff in Ha as (k & <- & _). done. }
  apply (Sorted_strengthen label_le).
  - intros a b Ha Hb Hne Hle. unfold label_lt. unfold label_le in Hle.
    destruct (String.compare (ReportRow.name a) (ReportRow.name b)) eqn:Hc; [|done|done].
    apply String.compare_eq_iff in Hc. exfalso. apply Hne.
    rewrite (Hin a Ha), (Hin b Hb). by rewrite Hc.
  - rewrite Hperm. apply (NoDup_fmap_2_strong _); [|done].
    intros k1 k2 _ _ [= ->]. done.
  - unfold aggregatedData.
    eapply Sorted_weaken; [|apply sort_sorted].
    + intros a b Hab. by apply localeCompare_le.
    + intros a b. apply localeCompare_total.
Qed.

Lemma bucketSales_perm key l1 l2 :
  Permutation l1 l2 ->
  bucketSales localTZA now reportType key l1
  = bucketSales localTZA now reportType key l2.
Proof.
  intros H. unfold bucketSales.
  apply (sumTotals_perm _ _ (filter_perm _ _ _ H)).
Qed.

Lemma aggregatedData_perm_invariant l1 l2 :
  Permutation l1 l2 ->
  aggregatedData localTZA now reportType l1
  = aggregatedData localTZA now reportType l2.
Proof.
  intros Hperm.
  destruct (aggregatedData_keyed l1) as (keys1 & Hnd1 & Hk1 & Hp1).
  destruct (aggregatedData_keyed l2) as (keys2 & Hnd2 & Hk2 & Hp2).
  assert (Htrans : Transitive label_lt)
    by (intros a b c; apply label_lt_trans).
  assert (Hanti : AntiSymm eq label_lt) by (intros a b; apply label_lt_asym).
  apply (Sorted_unique label_lt).
  - apply aggregatedData_strict.
  - apply aggregatedData_strict.
  - rewrite Hp1, Hp2.
    assert (Hkeys : Permutation keys1 keys2).
    { apply NoDup_Permutation; [done|done|].
      intros k. rewrite !list_elem_of_In, Hk1, Hk2.
      split; intros (sale & Hin & Hkey); exists sale; (split; [|done]).
      - apply list_elem_of_In. rewrite <- Hperm. by apply list_elem_of_In.
      - apply list_elem_of_In. rewrite Hperm. by apply list_elem_of_In. }
    rewrite Hkeys.
    erewrite map_ext; [reflexivity|].
    intros key. cbn. f_equal. by apply bucketSales_perm.
Qed.

End KeyLabelled.

(** X19. In a daily or yearly report no label appears twice: along the rows the
    labels increase strictly. *)
Theorem aggregatedData_labels_increase
  (localTZA : Z -> Z) (now : Z) (reportType : ReportType)
  (salesData : list Sale.t) :
  reportType <> Monthly ->
  Sorted label_lt (aggregatedData localTZA now reportType salesData)
  /\ NoDup (List.map ReportRow.name
                     (aggregatedData localTZA now reportType salesData)).
Proof.
  intros Hnot. split; [by apply aggregatedData_strict|].
  destruct (aggregatedData_keyed localTZA now reportType Hnot salesData)
    as (keys & Hnd & _ & Hperm).
  rewrite Hperm, List.map_map. cbn. by rewrite List.map_id.
Qed.

Lemma aggregatedData_labels_increase_witness :
  Daily <> Monthly
  /\ NoDup (List.map ReportRow.name (aggregatedData utc 0 Daily exampleSales)).
Proof.
  assert (H : Daily <> Monthly) by discriminate.
  split; [exact H|].
  exact (proj2 (aggregatedData_labels_increase utc 0 Daily exampleSales H)).
Defined.

(** X20. A daily or yearly report does not depend on the order in which the
    sales feed delivers the sales: two lists with the same sales give the
    same rows in the same order. *)
Theorem aggregatedData_order_independent
  (localTZA : Z -> Z) (now : Z) (reportType : ReportType)
  (sales1 sales2 : list Sale.t) :
  reportType <> Monthly ->
  Permutation sales1 sales2 ->
  aggregatedData localTZA now reportType sales1
  = aggregatedData localTZA now reportType sales2
  /\ totalSales localTZA now reportType sales1
     = totalSales localTZA now reportType sales2.
Proof.
  intros Hnot Hperm.
  pose proof (aggregatedData_perm_invariant localTZA now reportType Hnot
                sales1 sales2 Hperm) as H.
  split; [exact H|]. unfold totalSales. by rewrite H.
Qed.

Lemma aggregatedData_order_independent_witness :
  Daily <> Monthly
  /\ Permutation exampleSales (rev exampleSales)
  /\ aggregatedData utc 0 Daily exampleSales
     = aggregatedData utc 0 Daily (rev exampleSales).
Proof.
  assert (H1 : Daily <> Monthly) by discriminate.
  assert (H2 : Permutation exampleSales (rev exampleSales))
    by apply Permutation_rev.
  split; [exact H1|]. split; [exact H2|].
  exact (proj1 (aggregatedData_order_independent utc 0 Daily _ _ H1 H2)).
Defined.

(** ** The cart and the menu *)

Lemma updateItemQuantity_fromMenu item delta order :
  In item menuItems -> fromMenu order ->
  fromMenu (updateItemQuantity item delta order).
Proof.
  intros Hitem Hmenu. unfold updateItemQuantity.
  destruct (List.find (same_id item) order) as [existingItem|].
  - cbv zeta. destruct (Line.quantity existingItem + delta <=? 0).
    + apply Forall_forall. intros l Hl. apply list_elem_of_In in Hl.
      apply filter_In in Hl as [Hl _].
      unfold fromMenu in Hmenu. rewrite Forall_forall in Hmenu.
      apply Hmenu. by apply list_elem_of_In.
    + induction Hmenu as [|i o Hi _ IH]; simpl; constructor; [|exact IH].
      destruct (same_id item i); [|done].
      destruct Hi as (entry & Hin & Heq). exists entry. split; [done|].
      rewrite Heq. reflexivity.
  - destruct (delta >? 0); [|done].
    apply Forall_app. split; [done|]. constructor; [|constructor].
    by exists item.
Qed.

(** X4. Prices in a cart are menu prices: a cart built from the empty cart by
    quantity updates on entries of the menu has, in each line, the name and
    the price of a menu entry with the id of the line; so its total is made
    of menu prices only. *)
Theorem applyUpdates_fromMenu (updates : list (Item.t * Z)) (order : Order) :
  Forall (fun u => In (fst u) menuItems) updates ->
  fromMenu order ->
  fromMenu (applyUpdates updates order).
Proof.
  unfold applyUpdates. intros Hupdates. revert order.
  induction Hupdates as [|[item delta] updates Hitem _ IH]; intros o Hmenu;
    [done|].
  simpl. apply IH. by apply updateItemQuantity_fromMenu.
Qed.

Lemma applyUpdates_fromMenu_witness :
  Forall (fun u => In (fst u) menuItems)
         [(Item.mk "Tea" 20 "b7", 1); (Item.mk "Tea" 20 "b7", 1)]
  /\ fromMenu []
  /\ fromMenu (applyUpdates [(Item.mk "Tea" 20 "b7", 1);
                             (Item.mk "Tea" 20 "b7", 1)] []).
Proof.
  assert (Hin : In (Item.mk "Tea" 20 "b7") menuItems).
  { unfold menuItems, MENU_ITEMS. simpl. do 15 right. by left. }
  assert (H1 : Forall (fun u => In (fst u) menuItems)
                 [(Item.mk "Tea" 20 "b7", 1); (Item.mk "Tea" 20 "b7", 1)])
    by (repeat constructor; exact Hin).
  assert (H2 : fromMenu []) by constructor.
  split; [exact H1|]. split; [exact H2|].
  exact (applyUpdates_fromMenu _ [] H1 H2).
Defined.

(** ** Opening the modal *)

(** X15. The modal opens on stored tables only. On the card of a table that has
    a well-formed document it starts from the stored order; on the default
    card of a number without a document there is no order, and the first
    render throws. *)
Theorem openModal_on_card
  (collection : gmap string (gmap string Value)) (num : Z) :
  collectionOk collection ->
  let local := onTablesSnapshot (queryDocs collection) in
  (forall d,
      collection !! tableRef num = Some d ->
      exists order,
        d !! "order" = Some (VItems order)
        /\ openModal (tableData local num) = Some (OrderModal.init order))
  /\ (collection !! tableRef num = None ->
      openModal (tableData local num) = None).
Proof.
  intros Hok local. split.
  - intros d Hd. unfold local. rewrite (tableData_found _ _ _ Hok Hd).
    destruct (Hok _ _ Hd) as (i & order & _ & _ & _ & Ho & _).
    exists order. split; [done|].
    unfold openModal. rewrite tableObject_lookup by done. cbn [snd].
    by rewrite Ho.
  - intros Hnone. unfold local. by rewrite (tableData_missing _ _ Hok Hnone).
Qed.

Lemma openModal_on_card_witness :
  collectionOk (tables (sampleWorld []))
  /\ openModal (tableData
                  (onTablesSnapshot (queryDocs (tables (sampleWorld [])))) 5)
     = None.
Proof.
  assert (H : collectionOk (tables (sampleWorld []))).
  { intros ref d. cbn [sampleWorld tables].
    destruct (decide (ref = "3")) as [->|Hne].
    - rewrite lookup_insert_eq. intros [= <-].
      exists 3, twoTeas. repeat split; done.
    - by rewrite lookup_insert_ne, lookup_empty. }
  split; [exact H|].
  exact (proj2 (openModal_on_card _ 5 H) eq_refl).
Defined.

Lemma saveOrder_ok tableId order total w doc :
  tables w !! tableRef tableId = Some doc ->
  reliable 1 w ->
  tables (exec (App.saveOrder (Some firestore) tableId order total) w)
  = <[tableRef tableId
      := (resolve (serverTime w) <$> saveFields order total) ∪ doc]> (tables w).
Proof.
  intros Hdoc Hrel.
  destruct (updateDoc_ok (tableRef tableId) (saveFields order total) w doc 0
              Hdoc Hrel) as (w' & Hrun & Ht & _).
  unfold exec, App.saveOrder, try_catch. fold (saveFields order total).
  by rewrite Hrun.
Qed.

(** X16. What is saved is what the modal shows next. For a table with a
    well-formed document on a store of such documents, once a save from the
    modal is delivered and the tables feed has brought the store back, the
    modal opened on the card of that table starts from the saved cart; after
    a delivered checkout it starts from the empty cart. *)
Theorem reopen_after_write
  (w : World) (num : Z) (st : OrderModal.State) (doc : gmap string Value) :
  storeOk w ->
  tables w !! tableRef num = Some doc ->
  let reopened (w' : World) :=
    openModal (tableData (onTablesSnapshot (queryDocs (tables w'))) num) in
  (reliable 1 w ->
   reopened (exec (OrderModal.handleSave (App.saveOrder (Some firestore)) num st)
                  w)
   = Some (OrderModal.init (OrderModal.currentOrder st)))
  /\ (reliable 2 w -> OrderModal.currentOrder st <> [] ->
      reopened (exec (OrderModal.handleCheckout
                        (App.handleCheckout (Some firestore)) num st) w)
      = Some (OrderModal.init [])).
Proof.
  intros Hok Hdoc reopened. split.
  - intros Hrel. unfold reopened, OrderModal.handleSave.
    rewrite exec_then_ret.
    set (order := OrderModal.currentOrder st).
    assert (Hok' : collectionOk
                     (tables (exec (App.saveOrder (Some firestore) num order
                                      (tableTotal order)) w)))
      by (by apply (saveOrder_storeOk (Some firestore) num order w)).
    pose proof (saveOrder_ok num order (tableTotal order) w doc Hdoc Hrel) as Ht.
    assert (Hd : tables (exec (App.saveOrder (Some firestore) num order
                                 (tableTotal order)) w) !! tableRef num
                 = Some ((resolve (serverTime w)
                            <$> saveFields order (tableTotal order)) ∪ doc))
      by (by rewrite Ht, lookup_insert_eq).
    rewrite (tableData_found _ _ _ Hok' Hd).
    unfold openModal. rewrite tableObject_lookup by done. cbn [snd].
    by rewrite (lookup_merge_Some (saveFields order (tableTotal order)) doc
                  (serverTime w) "order" (VItems order) eq_refl).
  - intros Hrel Hne. unfold reopened, OrderModal.handleCheckout.
    destruct (OrderModal.currentOrder st) as [|l cart] eqn:Hc; [done|].
    cbn [length Nat.eqb]. rewrite exec_then_ret.
    assert (Hok' : collectionOk
                     (tables (exec (App.handleCheckout (Some firestore) num
                                      (l :: cart) (tableTotal (l :: cart))) w)))
      by (by apply (handleCheckout_storeOk (Some firestore) num (l :: cart)
                      (tableTotal (l :: cart)) w)).
    destruct (handleCheckout_ok num (l :: cart) (tableTotal (l :: cart)) w doc 0
                Hdoc Hrel) as (sale & w1 & Hrun & _ & _ & Ht & _).
    assert (Hw1 : exec (App.handleCheckout (Some firestore) num (l :: cart)
                          (tableTotal (l :: cart))) w = w1)
      by (unfold exec; by rewrite Hrun).
    rewrite Hw1 in Hok' |- *.
    assert (Hd : tables w1 !! tableRef num
                 = Some ((resolve (serverTime w) <$> resetFields) ∪ doc))
      by (by rewrite Ht, lookup_insert_eq).
    rewrite (tableData_found _ _ _ Hok' Hd).
    unfold openModal. rewrite tableObject_lookup by done. cbn [snd].
    by rewrite (lookup_merge_Some resetFields doc (serverTime w) "order"
                  (VItems []) eq_refl).
Qed.

Lemma reopen_after_write_witness :
  let st := OrderModal.mkState
              [Line.mk "Tea" 20 "b7" 2; Line.mk "Fried Rice" 100 "ns5" 1] "" in
  storeOk (sampleWorld [])
  /\ reliable 1 (sampleWorld [])
  /\ openModal
       (tableData
          (onTablesSnapshot
             (queryDocs
                (tables (exec (OrderModal.handleSave
                                 (App.saveOrder (Some firestore)) 3 st)
                              (sampleWorld []))))) 3)
     = Some (OrderModal.init (OrderModal.currentOrder st)).
Proof.
  intros st.
  assert (H : storeOk (sampleWorld [])).
  { intros ref d. cbn [sampleWorld tables].
    destruct (decide (ref = "3")) as [->|Hne].
    - rewrite lookup_insert_eq. intros [= <-].
      exists 3, twoTeas. repeat split; done.
    - by rewrite lookup_insert_ne, lookup_empty. }
  assert (Hrel : reliable 1 (sampleWorld []))
    by (unfold reliable; simpl; constructor).
  split; [exact H|]. split; [exact Hrel|].
  exact (proj1 (reopen_after_write (sampleWorld []) 3 st openTable3 H eq_refl)
               Hrel).
Defined.
